(** * The test DNS server of Boulder: record store, control API, hosts
      resolver and query responder

    The Go program embedded here is the [package main] of the test DNS
    server: [setTXT], [dnsHandler], [lookupStaticIP], [allHosts],
    [loadHosts] and [readHosts].

    Go strings are byte sequences and are modelled by [string] (a list of
    8-bit [ascii]); maps are [gmap]s; [(T, error)] results are sums
    [error + T]; the package-level variables [hosts] and [hostsTime] are an
    explicit state [Globals] threaded through the calls; a run-time panic
    (index out of range) is an explicit outcome.  Calls on the operating
    system ([os.Getenv], [os.Stat], [os.Open]) read a record [OS].  Output on
    stdout ([fmt.Printf]) and the locking of [ts.mu] are not modelled: the
    model is sequential.  The library functions whose result depends on
    Unicode or on a large grammar ([strings.ToLower], [strings.TrimSpace],
    [net.ParseIP], [json.Unmarshal]) are parameters of the model; the
    others are modelled on bytes. *)

From Stdlib Require Import ZArith NArith Ascii String List Lia.
From stdpp Require Import base option list gmap strings.

Local Open Scope Z_scope.

(** ** The Go standard library functions the program calls *)

Module GoLib.

(** Errors.  [io_EOF] is [io.EOF]; [os_ErrNotExist] stands for any error
    for which [os.IsNotExist] answers true. *)
Inductive error : Type :=
| io_EOF
| os_ErrNotExist
| os_ErrPermission
| err_other (msg : string).

Definition IsNotExist (e : error) : bool :=
  match e with os_ErrNotExist => true | _ => false end.

Definition isEOF (e : error) : bool :=
  match e with io_EOF => true | _ => false end.

(** The byte is one of the letters [A]..[Z]. *)
Definition isUpper (c : ascii) : bool :=
  ((65 <=? N_of_ascii c) && (N_of_ascii c <=? 90))%N.

(** [strings.TrimRight(s, cutset)]: [s] without its longest suffix made of
    bytes of [cutset]. *)
Fixpoint inCutset (c : ascii) (cutset : string) : bool :=
  match cutset with
  | EmptyString => false
  | String d cutset' => if Ascii.eqb c d then true else inCutset c cutset'
  end.

Fixpoint TrimRight (s cutset : string) : string :=
  match s with
  | EmptyString => EmptyString
  | String c s' =>
      match TrimRight s' cutset with
      | EmptyString => if inCutset c cutset then EmptyString else String c EmptyString
      | t => String c t
      end
  end.

(** The class [\s] of Go's regexp syntax: [[\t\n\f\r ]] (no vertical
    tab). *)
Definition reSpace (c : ascii) : bool :=
  match c with
  | "009" | "010" | "012" | "013" | " " => true
  | _ => false
  end%char.

(** [regexp.MustCompile("\\s+").Split(s, -1)]: the pieces of [s] between
    the maximal runs of [\s]; a run at either end leaves an empty piece
    there, and the empty string gives one empty piece.  [cur] is the piece
    being read and [inrun] tells that the previous byte was in a run. *)
Fixpoint Split_go (s cur : string) (inrun : bool) : list string :=
  match s with
  | EmptyString => [cur]
  | String c s' =>
      if reSpace c then
        if inrun then Split_go s' EmptyString true
        else cur :: Split_go s' EmptyString true
      else Split_go s' (cur +:+ String c EmptyString) false
  end.

Definition Split (s : string) : list string := Split_go s EmptyString false.

(** A [bufio.Reader] over an [io.Reader] that delivers the bytes [rd_data]
    and then the error [rd_err] ([io_EOF] at a regular end of file). *)
Record Reader : Type := mkReader { rd_data : string; rd_err : error }.

Definition newline : ascii := "010"%char.

(** The successive results of [br.ReadString('\n')] on the bytes [data]:
    the lines returned with a nil error, each with its newline, and the
    bytes left after the last newline, which are returned together with
    the reader's error.  [cur] holds the bytes of the line being read. *)
Fixpoint readLines (data cur : string) : list string * string :=
  match data with
  | EmptyString => ([], cur)
  | String c rest =>
      if Ascii.eqb c newline then
        let '(ls, last) := readLines rest EmptyString in
        ((cur +:+ String c EmptyString) :: ls, last)
      else readLines rest (cur +:+ String c EmptyString)
  end.

Definition ReadString_all (br : Reader) : list string * (string * error) :=
  let '(ls, last) := readLines (rd_data br) EmptyString in
  (ls, (last, rd_err br)).

(** [os.FileInfo], of which the program reads [ModTime()] only; instants
    are integers, [time.Time.Before] is [<], and the zero [time.Time] is
    [zeroTime]. *)
Record FileInfo : Type := mkFileInfo { ModTime : Z }.

Definition zeroTime : Z := 0.

Definition Before (t u : Z) : bool := t <? u.

(** What the program sees of the operating system. *)
Record OS : Type := mkOS {
  environ : string -> option string;
  Stat : string -> error + FileInfo;
  Open : string -> error + Reader
}.

(** [os.Getenv]: the empty string when the variable is not set. *)
Definition Getenv (os : OS) (key : string) : string :=
  default EmptyString (environ os key).

(** A byte [A]..[Z] occurs in [s]. *)
Fixpoint hasUpper (s : string) : bool :=
  match s with
  | EmptyString => false
  | String c s' => isUpper c || hasUpper s'
  end.

(** The last byte of [s] is a dot, as in a fully qualified domain name. *)
Fixpoint endsWithDot (s : string) : bool :=
  match s with
  | EmptyString => false
  | String c EmptyString => Ascii.eqb c "."%char
  | String _ s' => endsWithDot s'
  end.

(** No byte of [s] is a newline. *)
Fixpoint noNewline (s : string) : bool :=
  match s with
  | EmptyString => true
  | String c s' => negb (Ascii.eqb c newline) && noNewline s'
  end.

(** [strings.HasPrefix(s, prefix)] *)
Fixpoint HasPrefix (s prefix : string) : bool :=
  match prefix, s with
  | EmptyString, _ => true
  | String c prefix', String d s' => Ascii.eqb c d && HasPrefix s' prefix'
  | String _ _, EmptyString => false
  end.

(** [strings.Contains(s, substr)] *)
Fixpoint Contains (s substr : string) : bool :=
  HasPrefix s substr ||
  match s with
  | EmptyString => false
  | String _ s' => Contains s' substr
  end.

(** [strings.Split(s, sep)] for a separator [sep] of one byte: the pieces of
    [s] between the separators, one piece more than there are separators.
    [cur] is the piece being read. *)
Fixpoint SplitByte_go (s cur : string) (sep : ascii) : list string :=
  match s with
  | EmptyString => [cur]
  | String c s' =>
      if Ascii.eqb c sep then cur :: SplitByte_go s' EmptyString sep
      else SplitByte_go s' (cur +:+ String c EmptyString) sep
  end.

Definition SplitByte (s : string) (sep : ascii) : list string :=
  SplitByte_go s EmptyString sep.

(** The value of an [int64] after an arithmetic operation whose exact
    result is [z]: two's complement wrap-around. *)
Definition wrap64 (z : Z) : Z := (z + 2 ^ 63) mod 2 ^ 64 - 2 ^ 63.

(** [err.Error()] *)
Definition Error (e : error) : string :=
  match e with
  | io_EOF => "EOF"
  | os_ErrNotExist => "file does not exist"
  | os_ErrPermission => "permission denied"
  | err_other msg => msg
  end.

(** [s] ends with the byte [c]. *)
Fixpoint endsWithByte (c : ascii) (s : string) : bool :=
  match s with
  | EmptyString => false
  | String d EmptyString => Ascii.eqb d c
  | String _ s' => endsWithByte c s'
  end.

(** The string of [n] bytes [c]. *)
Fixpoint repeatByte (c : ascii) (n : nat) : string :=
  match n with
  | O => EmptyString
  | S n' => String c (repeatByte c n')
  end.

End GoLib.

Import GoLib.

(** [net.IP] is a byte slice. *)
Definition IP : Type := list Byte.byte.

(** ** DNS messages *)

(** The part of [github.com/miekg/dns] that the server uses.  The library is
    vendored by the project; its types are reduced to the fields the server
    reads or writes. *)
Module dns.

Definition TypeA : Z := 1.
Definition TypeSOA : Z := 6.
Definition TypeMX : Z := 15.
Definition TypeTXT : Z := 16.
Definition TypeCAA : Z := 257.
Definition ClassINET : Z := 1.
Definition RcodeSuccess : Z := 0.
Definition RcodeServerFailure : Z := 2.

Record Question : Type := mkQuestion {
  Name : string;
  Qtype : Z;
  Qclass : Z
}.

Record RR_Header : Type := mkHeader {
  Hdr_Name : string;
  Rrtype : Z;
  Class : Z;
  Ttl : Z
}.

(** Resource records; the field [A] of [dns.A] is a [net.IP] and may be
    nil ([None]). *)
Inductive RR : Type :=
| A (Hdr : RR_Header) (a : option IP)
| MX (Hdr : RR_Header) (Preference : Z) (Mx : string)
| TXT (Hdr : RR_Header) (Txt : list string)
| CAA (Hdr : RR_Header) (Flag : Z) (Tag : string) (Value : string)
| SOA (Hdr : RR_Header) (Ns Mbox : string) (Serial Refresh Retry Expire Minttl : Z).

Record Msg : Type := mkMsg {
  Id : Z;
  Response : bool;
  RecursionDesired : bool;
  Rcode : Z;
  Compress : bool;
  Questions : list Question;
  Answer : list RR;
  Ns : list RR
}.

(** [new(dns.Msg)] *)
Definition newMsg : Msg :=
  {| Id := 0; Response := false; RecursionDesired := false; Rcode := RcodeSuccess;
     Compress := false; Questions := []; Answer := []; Ns := [] |}.

(** [m.SetReply(request)]: identifier and recursion bit of the request, the
    response bit, a success status and the first question of the request;
    the record sections of [m] are left as they are. *)
Definition SetReply (m request : Msg) : Msg :=
  {| Id := Id request; Response := true; RecursionDesired := RecursionDesired request;
     Rcode := RcodeSuccess; Compress := Compress m;
     Questions := match Questions request with
                  | [] => Questions m
                  | q :: _ => [q]
                  end;
     Answer := Answer m; Ns := Ns m |}.

(** [m.SetRcode(request, rcode)] is [SetReply] followed by the status. *)
Definition SetRcode (m request : Msg) (rcode : Z) : Msg :=
  let m' := SetReply m request in
  {| Id := Id m'; Response := Response m'; RecursionDesired := RecursionDesired m';
     Rcode := rcode; Compress := Compress m'; Questions := Questions m';
     Answer := Answer m'; Ns := Ns m' |}.

(** [m.Compress = b] *)
Definition setCompress (m : Msg) (b : bool) : Msg :=
  {| Id := Id m; Response := Response m; RecursionDesired := RecursionDesired m;
     Rcode := Rcode m; Compress := b; Questions := Questions m;
     Answer := Answer m; Ns := Ns m |}.

(** [m.Answer = append(m.Answer, record)] *)
Definition appendAnswer (m : Msg) (record : RR) : Msg :=
  {| Id := Id m; Response := Response m; RecursionDesired := RecursionDesired m;
     Rcode := Rcode m; Compress := Compress m; Questions := Questions m;
     Answer := Answer m ++ [record]; Ns := Ns m |}.

(** [m.Ns = append(m.Ns, auth)] *)
Definition appendNs (m : Msg) (auth : RR) : Msg :=
  {| Id := Id m; Response := Response m; RecursionDesired := RecursionDesired m;
     Rcode := Rcode m; Compress := Compress m; Questions := Questions m;
     Answer := Answer m; Ns := Ns m ++ [auth] |}.

(** [rr.Header()] *)
Definition Header (rr : RR) : RR_Header :=
  match rr with
  | A Hdr _ | MX Hdr _ _ | TXT Hdr _ | CAA Hdr _ _ _ | SOA Hdr _ _ _ _ _ _ _ => Hdr
  end.

End dns.

(** ** Hosts resolver *)

(** The hosts table: [map[string][]net.IP]. *)
Abbreviation HostMap := (gmap string (list IP)).

(** The package-level variables [hosts] and [hostsTime]; [hosts] is the nil
    map until the first successful load. *)
Record Globals : Type := mkGlobals {
  hosts : option HostMap;
  hostsTime : Z
}.

Definition initGlobals : Globals := {| hosts := None; hostsTime := zeroTime |}.

(** ** Run-time outcomes *)

(** A computation over the package-level variables that ends with a value or
    with a run-time panic. *)
Inductive result (T : Type) : Type :=
| Done (v : T)
| Panic.
Arguments Done {T} v.
Arguments Panic {T}.

Definition Run (T : Type) : Type := Globals -> result T * Globals.

Definition ret {T} (v : T) : Run T := fun g => (Done v, g).

Definition panic {T} : Run T := fun g => (Panic, g).

Definition bind {T U} (c : Run T) (k : T -> Run U) : Run U :=
  fun g =>
    match c g with
    | (Done v, g') => k v g'
    | (Panic, g') => (Panic, g')
    end.

(** A call that reads and writes the package-level variables and cannot
    panic. *)
Definition call {T} (f : Globals -> T * Globals) : Run T :=
  fun g => let '(v, g') := f g in (Done v, g').

Notation "'bind!' x := c 'in' k" := (bind c (fun x => k))
  (at level 10, x name, c at level 200, k at level 200,
   format "'[' 'bind!'  x  :=  c  'in'  '/' k ']'").

(** [l[0]]: index out of range on the empty (or nil) slice. *)
Definition index0 {T} (l : list T) : Run T :=
  match l with
  | [] => panic
  | x :: _ => ret x
  end.

(** ** The server state and the control API request *)

(** [testSrv]; the lock [mu] is left out. *)
Record testSrv : Type := mkTestSrv {
  txtRecords : gmap string string
}.

Record setRequest : Type := mkSetRequest {
  Host : string;
  Value : string
}.

(** What [setTXT] reads of the [http.Request]: [r.URL.Path], [r.Method] and
    the result of [ioutil.ReadAll(r.Body)]. *)
Record Request : Type := mkRequest {
  URL_Path : string;
  Method : string;
  Body : error + string
}.

Definition StatusOK : Z := 200.
Definition StatusBadRequest : Z := 400.
Definition StatusNotFound : Z := 404.

(** ** The orphan finder *)

(** [parseLine] and the counting loop of [cmd/orphan-finder].  The regular
    expressions, the decoders and the storage authority are the fields of
    [Lib]; the storage authority has a state of type [SA].  The messages
    given to [logger.Err] are collected in [logged]. *)
Module OrphanFinder.

Record Lib (SA : Type) : Type := mkLib {
  (** [pemOrphan.FindString], [b64derOrphan.FindString] and
      [regOrphan.FindString]: the leftmost match, empty when there is none *)
  pemOrphan : string -> string;
  b64derOrphan : string -> string;
  regOrphan : string -> string;
  (** [pem.Decode]: the bytes of the block found, if any, and the rest of
      the input *)
  pem_Decode : list Byte.byte -> option (list Byte.byte) * list Byte.byte;
  (** [base64.StdEncoding.DecodeString] *)
  base64_DecodeString : string -> error + list Byte.byte;
  (** [strconv.Atoi] *)
  Atoi : string -> error + Z;
  (** [sa.AddCertificate(der, regID)]: the digest or the error, and the
      state of the storage authority after the call *)
  AddCertificate : list Byte.byte -> Z -> SA -> (error + string) * SA
}.
Arguments pemOrphan {SA}.
Arguments b64derOrphan {SA}.
Arguments regOrphan {SA}.
Arguments pem_Decode {SA}.
Arguments base64_DecodeString {SA}.
Arguments Atoi {SA}.
Arguments AddCertificate {SA}.

Record World (SA : Type) : Type := mkWorld {
  sa : SA;
  logged : list string
}.
Arguments mkWorld {SA}.
Arguments sa {SA}.
Arguments logged {SA}.

(** [logger.Err(msg)] *)
Definition logErr {SA} (w : World SA) (msg : string) : World SA :=
  {| sa := sa w; logged := logged w ++ [msg] |}.

(** The end of [parseLine], after [der] and [regID] were found. *)
Definition addOrphan {SA} (lib : Lib SA) (w : World SA) (line : string)
    (der : list Byte.byte) (regID : Z) : (bool * bool) * World SA :=
  match AddCertificate lib der regID (sa w) with
  | (inl err, sa') =>
      ((true, false),
       logErr {| sa := sa'; logged := logged w |}
              ("Failed to store certificate: " +:+ Error err +:+ ", [" +:+ line +:+ "]"))
  | (inr _, sa') => ((true, true), {| sa := sa'; logged := logged w |})
  end.

(** [parseLine]: the results [found] and [added], and the world after the
    call. *)
Definition parseLine {SA} (lib : Lib SA) (w : World SA) (line : string)
  : (bool * bool) * World SA :=
  if Contains line "pem=" then
    let pemStr := pemOrphan lib line in
    if String.eqb pemStr "" then
      ((true, false), logErr w ("pem variable is empty, [" +:+ line +:+ "]"))
    else
      match pem_Decode lib (String.list_byte_of_string pemStr) with
      | (None, _) => ((true, false), logErr w ("Couldn't decode PEM, [" +:+ line +:+ "]"))
      | (Some bytes, rest) =>
          if (0 <? length rest)%nat then
            ((true, false),
             logErr w ("PEM block contains trailing garbage, [" +:+ line +:+ "]"))
          else addOrphan lib w line bytes (-99)
      end
  else if Contains line "b64der=" then
    let derStr := b64derOrphan lib line in
    if String.eqb derStr "" then
      ((true, false), logErr w ("b64der variable is empty, [" +:+ line +:+ "]"))
    else
      match base64_DecodeString lib derStr with
      | inl err =>
          ((true, false),
           logErr w ("Couldn't decode b64: " +:+ Error err +:+ ", [" +:+ line +:+ "]"))
      | inr der =>
          let regStr := regOrphan lib line in
          if String.eqb regStr "" then
            ((true, false), logErr w ("regID variable is empty, [" +:+ line +:+ "]"))
          else
            match Atoi lib regStr with
            | inl err =>
                ((true, false),
                 logErr w ("Couldn't parse regID: " +:+ Error err +:+ ", [" +:+ line +:+ "]"))
            | inr regID => addOrphan lib w line der regID
            end
      end
  else ((false, false), w).

(** The counters [orphansFound] and [orphansAdded] of the loop in [main]. *)
Record Counters : Type := mkCounters {
  orphansFound : Z;
  orphansAdded : Z
}.

(** The body of the loop over the lines of the log. *)
Definition countLine {SA} (lib : Lib SA) (st : Counters * World SA) (line : string)
  : Counters * World SA :=
  let '(c, w) := st in
  let '((found, added), w') := parseLine lib w line in
  if found then
    let c1 := {| orphansFound := wrap64 (orphansFound c + 1); orphansAdded := orphansAdded c |} in
    if added then
      ({| orphansFound := orphansFound c1; orphansAdded := wrap64 (orphansAdded c1 + 1) |}, w')
    else (c1, w')
  else (c, w').

(** The loop over [strings.Split(string(logData), "\n")]. *)
Definition countOrphans {SA} (lib : Lib SA) (w : World SA) (logData : string)
  : Counters * World SA :=
  foldl (countLine lib) ({| orphansFound := 0; orphansAdded := 0 |}, w)
        (SplitByte logData newline).

(** The values given to [stats.Inc] after the loop: found, added and
    adding-failed. *)
Definition statsOf (c : Counters) : Z * Z * Z :=
  (orphansFound c, orphansAdded c, wrap64 (orphansFound c - orphansAdded c)).

End OrphanFinder.

(** ** Configuration *)

(** [PAConfig.CheckChallenges] and [AMQPConfig.ServerURL] of package
    [cmd]. *)
Module Config.

(** [PAConfig] without the [DBConfig] it embeds. *)
Record PAConfig : Type := mkPAConfig {
  EnforcePolicyWhitelist : bool;
  Challenges : gmap string bool;
  AllowAnySuffix : bool
}.

(** The loop [for name := range pc.Challenges] on the names in the order
    in which [range] gives them. *)
Fixpoint checkNames (ValidChallenge : string -> bool) (names : list string) : option error :=
  match names with
  | [] => None
  | name :: names' =>
      if negb (ValidChallenge name)
      then Some (err_other ("Invalid challenge in PA config: " +:+ name))
      else checkNames ValidChallenge names'
  end.

(** [CheckChallenges]; [ValidChallenge] is [core.ValidChallenge], and
    [names] are the keys of [pc.Challenges] in the order in which [range]
    gives them, which Go leaves open.  [None] is the nil error. *)
Definition CheckChallenges (ValidChallenge : string -> bool) (names : list string)
    (pc : PAConfig) : option error :=
  if (size (Challenges pc) =? 0)%nat then
    Some (err_other "empty challenges map in the Policy Authority config is not allowed")
  else checkNames ValidChallenge names.

Record AMQPConfig : Type := mkAMQPConfig {
  ServerURLFile : string;
  Server : string
}.

(** [ServerURL]; [ReadFile] is [ioutil.ReadFile], with the bytes and the
    error it returns. *)
Definition ServerURL (ReadFile : string -> string * option error) (a : AMQPConfig)
  : string * option error :=
  if negb (String.eqb (ServerURLFile a) "") then
    let '(url, err) := ReadFile (ServerURLFile a) in
    (TrimRight url (String newline EmptyString), err)
  else if String.eqb (Server a) "" then
    (EmptyString, Some (err_other "Missing AMQP server URL"))
  else (Server a, None).

End Config.

(** ** Instances of the library functions left open, for running the model *)

(** The server is parametric in [strings.ToLower], [strings.TrimSpace],
    [net.ParseIP] and [json.Unmarshal].  The module [Sample] gives one
    instance of each, enough to run the model on concrete requests: ASCII
    text for the two functions of [strings], dotted-quad IPv4 text, and the
    request bodies of the shapes [{}] and [{"host":"h","value":"v"}] without
    escapes. *)
Module Sample.

(** [strings.ToLower] on ASCII text: [A]..[Z] are mapped to [a]..[z] and
    the other bytes are kept. *)
Definition toLowerByte (c : ascii) : ascii :=
  if isUpper c then ascii_of_N (N_of_ascii c + 32) else c.

Fixpoint ToLower (s : string) : string :=
  match s with
  | EmptyString => EmptyString
  | String c s' => String (toLowerByte c) (ToLower s')
  end.

(** [strings.TrimSpace] on ASCII text: the white space is tab, newline,
    vertical tab, form feed, carriage return and space. *)
Definition isSpace (c : ascii) : bool :=
  match c with
  | "009" | "010" | "011" | "012" | "013" | " " => true
  | _ => false
  end%char.

Fixpoint TrimLeftSpace (s : string) : string :=
  match s with
  | EmptyString => EmptyString
  | String c s' => if isSpace c then TrimLeftSpace s' else s
  end.

Fixpoint TrimRightSpace (s : string) : string :=
  match s with
  | EmptyString => EmptyString
  | String c s' =>
      match TrimRightSpace s' with
      | EmptyString => if isSpace c then EmptyString else String c EmptyString
      | t => String c t
      end
  end.

Definition TrimSpace (s : string) : string := TrimRightSpace (TrimLeftSpace s).

Fixpoint splitDots (s cur : string) : list string :=
  match s with
  | EmptyString => [cur]
  | String c s' =>
      if Ascii.eqb c "."%char then cur :: splitDots s' EmptyString
      else splitDots s' (cur +:+ String c EmptyString)
  end.

Definition digit (c : ascii) : option N :=
  let n := N_of_ascii c in
  if ((48 <=? n) && (n <=? 57))%N then Some (n - 48)%N else None.

Fixpoint decimal (s : string) (acc : N) : option N :=
  match s with
  | EmptyString => Some acc
  | String c s' =>
      match digit c with
      | Some d => decimal s' (acc * 10 + d)%N
      | None => None
      end
  end.

Definition octet (s : string) : option Byte.byte :=
  match s with
  | EmptyString => None
  | _ => if (3 <? String.length s)%nat then None
         else match decimal s 0%N with
              | Some n => Byte.of_N n
              | None => None
              end
  end.

(** The 16-byte form that [net.ParseIP] gives to an IPv4 address. *)
Definition v4InV6Prefix : list Byte.byte :=
  [Byte.x00; Byte.x00; Byte.x00; Byte.x00; Byte.x00; Byte.x00; Byte.x00; Byte.x00;
   Byte.x00; Byte.x00; Byte.xff; Byte.xff].

Definition IPv4 (a b c d : Byte.byte) : IP := v4InV6Prefix ++ [a; b; c; d].

Definition ParseIP (s : string) : option IP :=
  match splitDots s EmptyString with
  | [a; b; c; d] =>
      match octet a, octet b, octet c, octet d with
      | Some a, Some b, Some c, Some d => Some (IPv4 a b c d)
      | _, _, _, _ => None
      end
  | _ => None
  end.

Definition dquote : ascii := "034"%char.

Definition quoted (s : string) : string :=
  String dquote (s +:+ String dquote EmptyString).

Fixpoint stripPrefix (p s : string) : option string :=
  match p, s with
  | EmptyString, _ => Some s
  | String c p', String d s' => if Ascii.eqb c d then stripPrefix p' s' else None
  | String _ _, EmptyString => None
  end.

(** The text before the next double quote, and what follows that quote. *)
Fixpoint untilQuote (s : string) : option (string * string) :=
  match s with
  | EmptyString => None
  | String c s' =>
      if Ascii.eqb c dquote then Some (EmptyString, s')
      else match untilQuote s' with
           | Some (t, rest) => Some (String c t, rest)
           | None => None
           end
  end.

Definition syntaxError : error := err_other "invalid character".

Definition jsonUnmarshal (msg : string) : error + setRequest :=
  if String.eqb msg "{}" then inr {| Host := EmptyString; Value := EmptyString |}
  else
    match stripPrefix ("{" +:+ quoted "host" +:+ ":" +:+ String dquote EmptyString) msg with
    | None => inl syntaxError
    | Some s1 =>
        match untilQuote s1 with
        | None => inl syntaxError
        | Some (h, s2) =>
            match stripPrefix ("," +:+ quoted "value" +:+ ":" +:+ String dquote EmptyString) s2 with
            | None => inl syntaxError
            | Some s3 =>
                match untilQuote s3 with
                | Some (v, "}") => inr {| Host := h; Value := v |}
                | _ => inl syntaxError
                end
            end
        end
    end.

(** The body [{"host":h,"value":v}]. *)
Definition body (h v : string) : string :=
  "{" +:+ quoted "host" +:+ ":" +:+ quoted h +:+ "," +:+ quoted "value" +:+ ":" +:+ quoted v +:+ "}".

(** A regular file with the given modification time and content. *)
Definition hostsFile (mtime : Z) (content : string) : OS :=
  {| environ := fun _ => None;
     Stat := fun path => if String.eqb path "/etc/hosts" then inr {| ModTime := mtime |}
                         else inl os_ErrNotExist;
     Open := fun path => if String.eqb path "/etc/hosts"
                         then inr {| rd_data := content; rd_err := io_EOF |}
                         else inl os_ErrNotExist |}.

(** The same system with the variable [FAKE_DNS] set to [v]. *)
Definition withFakeDNS (v : string) (os : OS) : OS :=
  {| environ := fun key => if String.eqb key "FAKE_DNS" then Some v else environ os key;
     Stat := Stat os;
     Open := Open os |}.

(** A system without [/etc/hosts]. *)
Definition noHostsFile : OS :=
  {| environ := fun _ => None;
     Stat := fun _ => inl os_ErrNotExist;
     Open := fun _ => inl os_ErrNotExist |}.

Definition nl : string := String newline EmptyString.

(** A query with the given questions. *)
Definition query (qs : list dns.Question) : dns.Msg :=
  {| dns.Id := 7; dns.Response := false; dns.RecursionDesired := true;
     dns.Rcode := dns.RcodeSuccess; dns.Compress := false;
     dns.Questions := qs; dns.Answer := []; dns.Ns := [] |}.

(** A hosts file that [os.Stat] sees and [os.Open] refuses. *)
Definition unreadableHostsFile (mtime : Z) : OS :=
  {| environ := fun _ => None;
     Stat := fun _ => inr {| ModTime := mtime |};
     Open := fun _ => inl os_ErrPermission |}.

Definition questionA (n : string) : dns.Question :=
  {| dns.Name := n; dns.Qtype := dns.TypeA; dns.Qclass := dns.ClassINET |}.

Definition questionTXT (n : string) : dns.Question :=
  {| dns.Name := n; dns.Qtype := dns.TypeTXT; dns.Qclass := dns.ClassINET |}.

Definition questionCAA (n : string) : dns.Question :=
  {| dns.Name := n; dns.Qtype := dns.TypeCAA; dns.Qclass := dns.ClassINET |}.

(** [POST /set-txt] with the given body. *)
Definition post (msg : string) : Request :=
  {| URL_Path := "/set-txt"; Method := "POST"; Body := inr msg |}.

(** The record store of a server that has just started. *)
Definition freshSrv : testSrv := {| txtRecords := ∅ |}.

(** A hosts file with the single line [127.0.0.1 localhost], and the system
    that has it, in the hosts mode. *)
Definition localhostLine : string := "127.0.0.1 localhost".

Definition hostsModeOS : OS :=
  withFakeDNS "hosts" (hostsFile 5 (localhostLine +:+ nl)).

Definition localhostIP : IP := IPv4 Byte.x7f Byte.x00 Byte.x00 Byte.x01.

End Sample.

(** An instance of the library of the orphan finder, for running the
    model.  The three regular expressions are searched as [FindString]
    does: the leftmost match, the longest one at that place, and the whole
    match is the result, not the group in brackets.  The decoders know the
    texts [QUJD], [17] and [0] and refuse any other text, among them every
    text that has a bracket; the storage authority keeps the list of what
    it was given and refuses the registration 0. *)
Module OrphanSample.

Definition SA : Type := list (list Byte.byte * Z).

(** The bytes before the first newline: where a match of [.+] must end. *)
Fixpoint untilNewline (s : string) : string :=
  match s with
  | EmptyString => EmptyString
  | String c s' => if Ascii.eqb c newline then EmptyString else String c (untilNewline s')
  end.

(** [s] up to its last closing bracket, if it has one. *)
Fixpoint uptoLastBracket (s : string) : option string :=
  match s with
  | EmptyString => None
  | String c s' =>
      match uptoLastBracket s' with
      | Some t => Some (String c t)
      | None => if Ascii.eqb c "]"%char then Some (String c EmptyString) else None
      end
  end.

(** The match of [prefix(.+)\]] at the start of [s], if there is one:
    [prefix], then as many bytes of the line as can be followed by a
    closing bracket, at least one, then that bracket. *)
Definition matchDotPlus (prefix s : string) : option string :=
  match Sample.stripPrefix prefix s with
  | None => None
  | Some rest =>
      match uptoLastBracket (untilNewline rest) with
      | Some t => if (2 <=? String.length t)%nat then Some (prefix +:+ t) else None
      | None => None
      end
  end.

(** [FindString] for [prefix(.+)\]]. *)
Fixpoint findDotPlus (prefix s : string) : string :=
  match matchDotPlus prefix s with
  | Some found => found
  | None =>
      match s with
      | EmptyString => EmptyString
      | String _ s' => findDotPlus prefix s'
      end
  end.

Definition isDigit (c : ascii) : bool :=
  ((48 <=? N_of_ascii c) && (N_of_ascii c <=? 57))%N.

(** The digits at the start of [s], and what follows them. *)
Fixpoint spanDigits (s : string) : string * string :=
  match s with
  | EmptyString => (EmptyString, EmptyString)
  | String c s' =>
      if isDigit c then let '(ds, rest) := spanDigits s' in (String c ds, rest)
      else (EmptyString, s)
  end.

(** The match of [regID=\[\d+\]] at the start of [s], if there is one. *)
Definition matchRegID (s : string) : option string :=
  match Sample.stripPrefix "regID=[" s with
  | None => None
  | Some rest =>
      match spanDigits rest with
      | (String d ds, String c _) =>
          if Ascii.eqb c "]"%char then Some ("regID=[" +:+ String d ds +:+ "]") else None
      | _ => None
      end
  end.

(** [FindString] for [regID=\[\d+\]]. *)
Fixpoint findRegID (s : string) : string :=
  match matchRegID s with
  | Some found => found
  | None =>
      match s with
      | EmptyString => EmptyString
      | String _ s' => findRegID s'
      end
  end.

Definition lib : OrphanFinder.Lib SA :=
  {| OrphanFinder.pemOrphan := findDotPlus "pem=[";
     OrphanFinder.b64derOrphan := findDotPlus "b64der=[";
     OrphanFinder.regOrphan := findRegID;
     OrphanFinder.pem_Decode := fun data => (None, data);
     OrphanFinder.base64_DecodeString := fun s =>
       if String.eqb s "QUJD" then inr [Byte.x41; Byte.x42; Byte.x43]
       else inl (err_other "illegal base64 data");
     OrphanFinder.Atoi := fun s =>
       if String.eqb s "17" then inr 17
       else if String.eqb s "0" then inr 0
       else inl (err_other "invalid syntax");
     OrphanFinder.AddCertificate := fun der regID sa =>
       if regID =? 0 then (inl (err_other "no such registration"), sa)
       else (inr "digest", (der, regID) :: sa) |}.

Definition world : OrphanFinder.World SA :=
  {| OrphanFinder.sa := []; OrphanFinder.logged := [] |}.

Definition goodLine : string := "orphaned b64der=[QUJD] regID=[17]".
Definition badLine : string := "orphaned b64der=[QUJD] regID=[0]".
Definition otherLine : string := "nothing to see".

Definition logData : string :=
  goodLine +:+ String newline (badLine +:+ String newline (otherLine +:+ String newline goodLine)).

End OrphanSample.

Section Server.

(** [strings.TrimSpace] *)
Variable TrimSpace : string -> string.

(** [net.ParseIP]: [None] is the nil [net.IP] returned for text that is not
    an address. *)
Variable ParseIP : string -> option IP.

(** [strings.ToLower] *)
Variable ToLower : string -> string.

(** [ret[name] = append(ret[name], addr)] *)
Definition appendHost (addr : IP) (ret : HostMap) (name : string) : HostMap :=
  <[name := default [] (ret !! name) ++ [addr]]> ret.

(** The body of the loop of [readHosts] for a line [l] that [ReadString]
    returned with a nil error.  [Split] never returns the empty list (lemma
    [Split_not_nil]), so [fs[0]] is in range and the first branch on
    [Split l'] is never taken. *)
Definition readHosts_line (ret : HostMap) (l : string) : HostMap :=
  match TrimSpace l with
  | EmptyString => ret
  | String c _ as l' =>
      if Ascii.eqb c "#"%char then ret
      else
        match Split l' with
        | [] => ret
        | f0 :: names =>
            match ParseIP f0 with
            | None => ret
            | Some addr => foldl (appendHost addr) ret names
            end
        end
  end.

(** [readHosts]: the loop ends at the first error of [ReadString]; the
    bytes returned with that error are not looked at. *)
Definition readHosts (r : Reader) : error + HostMap :=
  let '(ls, (_, err)) := ReadString_all r in
  let ret := foldl readHosts_line ∅ ls in
  if isEOF err then inr ret else inl err.

Definition loadHosts (os : OS) (path : string) : error + HostMap :=
  match Open os path with
  | inl err => inl err
  | inr f => readHosts f
  end.

Definition hostsPath : string := "/etc/hosts".

(** [hosts == nil] *)
Definition isNil (m : option HostMap) : bool :=
  match m with None => true | Some _ => false end.

(** [allHosts]: the result and the package-level variables after the call.
    Where [hosts] is returned it is not nil; [default] reads the nil map as
    the empty one. *)
Definition allHosts (os : OS) (g : Globals) : (error + HostMap) * Globals :=
  match Stat os hostsPath with
  | inl err => (inl err, g)
  | inr st =>
      if isNil (hosts g) || Before (hostsTime g) (ModTime st) then
        match loadHosts os hostsPath with
        | inl err => (inl err, g)
        | inr hm => (inr hm, {| hosts := Some hm; hostsTime := ModTime st |})
        end
      else (inr (default ∅ (hosts g)), g)
  end.

(** [lookupStaticIP]: [inr []] is the result [(nil, nil)]. *)
Definition lookupStaticIP (os : OS) (name : string) (g : Globals)
  : (error + list IP) * Globals :=
  match allHosts os g with
  | (inl err, g') => if IsNotExist err then (inr [], g') else (inl err, g')
  | (inr hm, g') => (inr (default [] (hm !! name)), g')
  end.

(** [json.Unmarshal(msg, &sr)] on a zero [setRequest]: the decoded request
    or the error. *)
Variable jsonUnmarshal : string -> error + setRequest.

(** ** Control API *)

(** [setTXT]: the status code written and the server state after the
    request. *)
Definition setTXT (ts : testSrv) (r : Request) : Z * testSrv :=
  if negb (String.eqb (URL_Path r) "/set-txt") then (StatusNotFound, ts)
  else if negb (String.eqb (Method r) "POST") then (405, ts)
  else
    match Body r with
    | inl err => (StatusBadRequest, ts)
    | inr msg =>
        match jsonUnmarshal msg with
        | inl err => (StatusBadRequest, ts)
        | inr sr =>
            if String.eqb (Host sr) "" then (StatusBadRequest, ts)
            else (StatusOK,
                  {| txtRecords := <[ToLower (Host sr) := Value sr]> (txtRecords ts) |})
        end
    end.

(** ** Query responder *)

Import dns.

Definition answerHdr (q : Question) (rrtype : Z) : RR_Header :=
  {| Hdr_Name := Name q; Rrtype := rrtype; Class := ClassINET; Ttl := 0 |}.

(** The body of the loop over [r.Question] in [dnsHandler]: the reply [m]
    after the question [q]. *)
Definition answerQuestion (os : OS) (ts : testSrv) (fakeDNS : string)
    (r : Msg) (m : Msg) (q : Question) : Run Msg :=
  if Qtype q =? TypeA then
    if String.eqb fakeDNS "hosts" then
      bind! res := call (lookupStaticIP os (TrimRight (Name q) ".")) in
      match res with
      | inl err => ret (SetRcode m r RcodeServerFailure)
      | inr ips =>
          bind! ip := index0 ips in
          ret (appendAnswer m (A (answerHdr q TypeA) (Some ip)))
      end
    else ret (appendAnswer m (A (answerHdr q TypeA) (ParseIP fakeDNS)))
  else if Qtype q =? TypeMX then
    ret (appendAnswer m (MX (answerHdr q TypeMX) 10 ("mail." +:+ Name q)))
  else if Qtype q =? TypeTXT then
    match txtRecords ts !! Name q with
    | None => ret m
    | Some value => ret (appendAnswer m (TXT (answerHdr q TypeTXT) [value]))
    end
  else if Qtype q =? TypeCAA then
    if String.eqb (Name q) "bad-caa-reserved.com."
       || String.eqb (Name q) "good-caa-reserved.com." then
      let value :=
        if String.eqb (Name q) "bad-caa-reserved.com." then "sad-hacker-ca.invalid"
        else if String.eqb (Name q) "good-caa-reserved.com." then "happy-hacker-ca.invalid"
        else "" in
      ret (appendAnswer m (CAA (answerHdr q TypeCAA) 0 "issue" value))
    else ret m
  else ret m.

Fixpoint answerQuestions (os : OS) (ts : testSrv) (fakeDNS : string)
    (r : Msg) (qs : list Question) (m : Msg) : Run Msg :=
  match qs with
  | [] => ret m
  | q :: qs' =>
      bind! m' := answerQuestion os ts fakeDNS r m q in
      answerQuestions os ts fakeDNS r qs' m'
  end.

(** The authority record of every reply. *)
Definition auth : RR :=
  SOA {| Hdr_Name := "boulder.invalid."; Rrtype := TypeSOA; Class := ClassINET; Ttl := 0 |}
      "ns.boulder.invalid." "master.boulder.invalid." 1 1 1 1 1.

(** [FAKE_DNS] as [dnsHandler] uses it. *)
Definition fakeDNS_of (os : OS) : string :=
  let fakeDNS := Getenv os "FAKE_DNS" in
  if String.eqb fakeDNS "" then "127.0.0.1" else fakeDNS.

(** [dnsHandler]: the message handed to [w.WriteMsg], or the panic that
    ends the handler before it writes anything. *)
Definition dnsHandler (os : OS) (ts : testSrv) (r : Msg) : Run Msg :=
  let m := setCompress (SetReply newMsg r) false in
  bind! m' := answerQuestions os ts (fakeDNS_of os) r (Questions r) m in
  ret (appendNs m' auth).

(** A request that publishes the value [v] for the host [h]: a [POST] to
    [/set-txt] whose body decodes to [{host: h, value: v}]. *)
Definition publishes (r : Request) (h v : string) : Prop :=
  URL_Path r = "/set-txt" /\ Method r = "POST" /\
  exists msg, Body r = inr msg /\ jsonUnmarshal msg = inr {| Host := h; Value := v |}.

(** The body of the request was read and decoded to [sr]. *)
Definition decodesTo (r : Request) (sr : setRequest) : Prop :=
  exists msg, Body r = inr msg /\ jsonUnmarshal msg = inr sr.

(** [main] starts the server with an empty record store. *)
Definition newTestSrv : testSrv := {| txtRecords := ∅ |}.

(** The server after the requests [rs] to the control API, in order. *)
Definition afterRequests (ts : testSrv) (rs : list Request) : testSrv :=
  foldl (fun ts r => snd (setTXT ts r)) ts rs.

(** A hosts table in which every name has at least one address and every
    address is one that [net.ParseIP] returned. *)
Definition wfTable (hm : HostMap) : Prop :=
  forall name ips, hm !! name = Some ips ->
    ips <> [] /\ Forall (fun ip => exists s, ParseIP s = Some ip) ips.

Definition wfCache (g : Globals) : Prop :=
  forall hm, hosts g = Some hm -> wfTable hm.

(** The content of a file with the lines [ls], each ended by a newline,
    followed by the bytes [tail]. *)
Definition fileOf (ls : list string) (tail : string) : string :=
  foldr (fun l rest => l +:+ String newline rest) tail ls.

(** * Properties *)

(** ** What is used of [strings.ToLower] *)

(** The result of [strings.ToLower] has none of the letters [A]..[Z]; it
    is empty for the empty string only; and it ends with a dot exactly when
    the argument does. *)
Hypothesis ToLower_no_upper : forall s, hasUpper (ToLower s) = false.
Hypothesis ToLower_nonempty : forall s, ToLower s = EmptyString -> s = EmptyString.
Hypothesis ToLower_dot : forall s, endsWithDot (ToLower s) = endsWithDot s.

(** The instance for ASCII text has these three properties. *)
Lemma Sample_toLowerByte_not_upper c : isUpper (Sample.toLowerByte c) = false.
Proof. by destruct c as [[] [] [] [] [] [] [] []]. Qed.

Lemma Sample_toLowerByte_dot c :
  Ascii.eqb (Sample.toLowerByte c) "."%char = Ascii.eqb c "."%char.
Proof. by destruct c as [[] [] [] [] [] [] [] []]. Qed.

Lemma Sample_ToLower_no_upper s : hasUpper (Sample.ToLower s) = false.
Proof.
  induction s as [|c s IH]; simpl; [done|].
  by rewrite Sample_toLowerByte_not_upper, IH.
Qed.

Lemma Sample_ToLower_nonempty s : Sample.ToLower s = EmptyString -> s = EmptyString.
Proof. by destruct s. Qed.

Lemma Sample_ToLower_dot s : endsWithDot (Sample.ToLower s) = endsWithDot s.
Proof.
  induction s as [|c s IH]; simpl; [done|].
  destruct s as [|d s]; simpl in *; [apply Sample_toLowerByte_dot | apply IH].
Qed.

(** A string with one of the letters [A]..[Z] is changed by
    [strings.ToLower]. *)
Lemma ToLower_changes_upper s : hasUpper s = true -> ToLower s <> s.
Proof.
  intros Hs Heq. pose proof (ToLower_no_upper s) as Hl. rewrite Heq in Hl. congruence.
Qed.

Lemma String_eqb_false (s t : string) : s <> t -> String.eqb s t = false.
Proof. by intros H; apply String.eqb_neq. Qed.

(** ** Control API *)

Lemma setTXT_published ts r h v :
  h <> EmptyString -> publishes r h v ->
  setTXT ts r = (StatusOK, {| txtRecords := <[ToLower h := v]> (txtRecords ts) |}).
Proof.
  intros Hh (Hpath & Hmeth & msg & Hbody & Hjson). unfold setTXT.
  rewrite Hpath, Hmeth, Hbody, Hjson; simpl.
  by rewrite (String_eqb_false h EmptyString Hh).
Qed.

(** C6: the status codes of the control API.  A [POST] to [/set-txt] whose
    body decodes to a request with a non-empty host is answered 200; a
    [POST] to [/set-txt] whose body cannot be read or decoded, or decodes to
    an empty host, is answered 400 and leaves the record store as it was;
    another method on [/set-txt] is answered 405; any other path is
    answered 404. *)
Theorem setTXT_status_codes (ts : testSrv) (r : Request) :
  (URL_Path r = "/set-txt" -> Method r = "POST" ->
     forall sr, decodesTo r sr -> Host sr <> EmptyString ->
     fst (setTXT ts r) = 200) /\
  (URL_Path r = "/set-txt" -> Method r = "POST" ->
     (~ (exists sr, decodesTo r sr)) \/ (exists sr, decodesTo r sr /\ Host sr = EmptyString) ->
     setTXT ts r = (400, ts)) /\
  (URL_Path r = "/set-txt" -> Method r <> "POST" -> setTXT ts r = (405, ts)) /\
  (URL_Path r <> "/set-txt" -> setTXT ts r = (404, ts)).
Proof.
  unfold setTXT, decodesTo. repeat split.
  - intros -> -> sr (msg & -> & ->) Hh; simpl.
    by rewrite (String_eqb_false _ _ Hh).
  - intros -> -> [Hno | (sr & (msg & -> & ->) & Hh)]; simpl.
    + destruct (Body r) as [err|msg] eqn:Hb; [done|].
      destruct (jsonUnmarshal msg) as [err|sr] eqn:Hj; [done|].
      destruct Hno. by exists sr, msg.
    + by rewrite Hh.
  - intros -> Hm; simpl. by rewrite (String_eqb_false _ _ Hm).
  - intros Hp. by rewrite (String_eqb_false _ _ Hp).
Qed.

(** C4: publishing stores the value under the host lowered by
    [strings.ToLower], and
    publishing [v1] and then [v2] for a non-empty host [h] leaves [v2] as the
    value stored for [ToLower h]: the record store is the one that the
    publication of [v2] alone gives, so nothing of [v1] is left, and every
    other entry is as before the two publications. *)
Theorem publish_twice_keeps_last (ts : testSrv) (r1 r2 : Request) (h v1 v2 : string) :
  h <> EmptyString -> publishes r1 h v1 -> publishes r2 h v2 ->
  let ts1 := snd (setTXT ts r1) in
  let ts2 := snd (setTXT ts1 r2) in
  fst (setTXT ts r1) = 200 /\ fst (setTXT ts1 r2) = 200 /\
  txtRecords ts1 = <[ToLower h := v1]> (txtRecords ts) /\
  txtRecords ts2 !! ToLower h = Some v2 /\
  txtRecords ts2 = txtRecords (snd (setTXT ts r2)) /\
  (forall k, k <> ToLower h -> txtRecords ts2 !! k = txtRecords ts !! k).
Proof.
  intros Hh H1 H2 ts1 ts2. subst ts1 ts2.
  rewrite (setTXT_published ts r1 h v1 Hh H1); simpl.
  rewrite !(setTXT_published _ r2 h v2 Hh H2); simpl.
  repeat split.
  - apply lookup_insert_eq.
  - apply insert_insert_eq.
  - intros k Hk. by rewrite !lookup_insert_ne.
Qed.

(** ** Query responder: one question *)

Lemma answerQuestion_txt os ts fakeDNS r m q g :
  Qtype q = TypeTXT ->
  answerQuestion os ts fakeDNS r m q g =
    (Done (match txtRecords ts !! Name q with
           | Some value => appendAnswer m (TXT (answerHdr q TypeTXT) [value])
           | None => m
           end), g).
Proof.
  intros Hq. unfold answerQuestion. rewrite Hq. simpl.
  by destruct (txtRecords ts !! Name q).
Qed.



Lemma answerQuestion_a_hosts os ts r m q g :
  Qtype q = TypeA ->
  answerQuestion os ts "hosts" r m q g =
    match lookupStaticIP os (TrimRight (Name q) ".") g with
    | (inl _, g') => (Done (SetRcode m r RcodeServerFailure), g')
    | (inr [], g') => (Panic, g')
    | (inr (ip :: _), g') => (Done (appendAnswer m (A (answerHdr q TypeA) (Some ip))), g')
    end.
Proof.
  intros Hq. unfold answerQuestion. rewrite Hq. simpl. unfold bind, call.
  destruct (lookupStaticIP os (TrimRight (Name q) ".") g) as [[err|[|ip ips]] g']; done.
Qed.

(** ** Hosts resolver: the cache *)

(** C7, as the code has it: when the modification time of the hosts file
    cannot be read, the error is returned and the cache is left as it is.
    Otherwise, a cached table whose timestamp is not older than the
    modification time is returned and the cache is left as it is; when no
    table is cached yet or the timestamp is older, the whole file is read
    again: a successful parse replaces the table and the timestamp by the
    new table and the modification time, a failed one returns its error and
    leaves the cache as it is. *)
Theorem allHosts_cache_rule (os : OS) (g : Globals) :
  (forall err, Stat os hostsPath = inl err -> allHosts os g = (inl err, g)) /\
  (forall st, Stat os hostsPath = inr st ->
     (forall hm, hosts g = Some hm -> ~ hostsTime g < ModTime st ->
        allHosts os g = (inr hm, g)) /\
     (hosts g = None \/ hostsTime g < ModTime st ->
        (forall hm, loadHosts os hostsPath = inr hm ->
           allHosts os g = (inr hm, {| hosts := Some hm; hostsTime := ModTime st |})) /\
        (forall err, loadHosts os hostsPath = inl err ->
           allHosts os g = (inl err, g)))).
Proof.
  unfold allHosts, Before. split.
  - by intros err ->.
  - intros st ->. split.
    + intros hm -> Hnew; simpl.
      by destruct (Z.ltb_spec (hostsTime g) (ModTime st)).
    + intros Hold.
      assert (isNil (hosts g) || (hostsTime g <? ModTime st) = true) as ->.
      { destruct Hold as [-> | Hlt]; [done|].
        apply orb_true_iff; right. by apply Z.ltb_lt. }
      split; [intros hm -> | intros err ->]; done.
Qed.

(** ** Query responder: the whole message *)

Lemma answerQuestion_Ns os ts fakeDNS r m q g m' g' :
  answerQuestion os ts fakeDNS r m q g = (Done m', g') -> Ns m' = Ns m.
Proof.
  unfold answerQuestion, bind, call, index0, ret, panic.
  repeat (case_match; simplify_eq/=); intros; by simplify_eq/=.
Qed.

Lemma answerQuestions_Ns os ts fakeDNS r qs : forall m g m' g',
  answerQuestions os ts fakeDNS r qs m g = (Done m', g') -> Ns m' = Ns m.
Proof.
  induction qs as [|q qs IH]; intros m g m' g'; simpl.
  - unfold ret. by intros [= -> _].
  - unfold bind at 1.
    destruct (answerQuestion os ts fakeDNS r m q g) as [[m1|] g1] eqn:Hq; [|done].
    intros Hqs. apply IH in Hqs. apply answerQuestion_Ns in Hq. congruence.
Qed.

(** Every reply that [dnsHandler] writes has the SOA record as its only
    authority record. *)
Lemma dnsHandler_authority os ts r g m g' :
  dnsHandler os ts r g = (Done m, g') -> Ns m = [auth].
Proof.
  unfold dnsHandler, bind at 1.
  destruct (answerQuestions _ _ _ _ _ _ _) as [[m1|] g1] eqn:Hqs; [|done].
  unfold ret. intros [= <- _]. simpl.
  apply answerQuestions_Ns in Hqs. by rewrite Hqs.
Qed.

(** Outside of the hosts mode no question can make the handler panic, and
    the package-level variables are not touched. *)
Lemma answerQuestion_done os ts fakeDNS r m q g :
  fakeDNS <> "hosts" \/ Qtype q <> TypeA ->
  exists m', answerQuestion os ts fakeDNS r m q g = (Done m', g).
Proof.
  intros H. unfold answerQuestion, ret.
  destruct (Z.eqb_spec (Qtype q) TypeA) as [Hq|Hq].
  - destruct H as [H|H]; [|done]. rewrite (String_eqb_false _ _ H). eauto.
  - repeat case_match; eauto.
Qed.

Lemma answerQuestions_done os ts fakeDNS r qs : forall m g,
  fakeDNS <> "hosts" \/ Forall (fun q => Qtype q <> TypeA) qs ->
  exists m', answerQuestions os ts fakeDNS r qs m g = (Done m', g).
Proof.
  induction qs as [|q qs IH]; intros m g H; simpl.
  - by exists m.
  - destruct (answerQuestion_done os ts fakeDNS r m q g) as [m1 Hm1].
    { destruct H as [H|H]; [by left|right]. by inversion H. }
    unfold bind. rewrite Hm1. apply IH.
    destruct H as [H|H]; [by left|right]. by inversion H.
Qed.

Lemma dnsHandler_done os ts r g :
  fakeDNS_of os <> "hosts" \/ Forall (fun q => Qtype q <> TypeA) (Questions r) ->
  exists m, dnsHandler os ts r g = (Done m, g) /\ Ns m = [auth].
Proof.
  intros H. unfold dnsHandler.
  destruct (answerQuestions_done os ts (fakeDNS_of os) r (Questions r)
              (setCompress (SetReply newMsg r) false) g H) as [m1 Hm1].
  exists (appendNs m1 auth). split.
  - unfold bind. by rewrite Hm1.
  - apply (dnsHandler_authority os ts r g _ g). unfold dnsHandler, bind. by rewrite Hm1.
Qed.

(** ** Query responder: the answers *)

Lemma dnsHandler_of_loop os ts r g m' g' :
  answerQuestions os ts (fakeDNS_of os) r (Questions r)
    (setCompress (SetReply newMsg r) false) g = (Done m', g') ->
  dnsHandler os ts r g = (Done (appendNs m' auth), g').
Proof. intros H. unfold dnsHandler, bind. by rewrite H. Qed.

Lemma dnsHandler_one os ts r q g m' g' :
  Questions r = [q] ->
  answerQuestion os ts (fakeDNS_of os) r (setCompress (SetReply newMsg r) false) q g
    = (Done m', g') ->
  exists mr, dnsHandler os ts r g = (Done mr, g') /\
    Answer mr = Answer m' /\ Rcode mr = Rcode m' /\ Ns mr = Ns m' ++ [auth].
Proof.
  intros Hqs Hq. exists (appendNs m' auth). split; [|done].
  apply dnsHandler_of_loop. rewrite Hqs. simpl. unfold bind. by rewrite Hq.
Qed.

(** The loop over questions that are answered without the hosts
    resolver: [f] gives the record of a question, if it has one. *)
Lemma answerQuestions_omap os ts fakeDNS r (f : Question -> option RR) qs : forall m g,
  Forall (fun q => forall m g,
            answerQuestion os ts fakeDNS r m q g =
              (Done (match f q with Some rr => appendAnswer m rr | None => m end), g)) qs ->
  exists m', answerQuestions os ts fakeDNS r qs m g = (Done m', g) /\
    Answer m' = Answer m ++ omap f qs /\ Rcode m' = Rcode m /\ Ns m' = Ns m.
Proof.
  induction qs as [|q qs IH]; intros m g Hall; simpl.
  - exists m. by rewrite app_nil_r.
  - inversion Hall as [|? ? Hq Hrest]; subst.
    unfold bind. rewrite Hq.
    destruct (IH (match f q with Some rr => appendAnswer m rr | None => m end) g Hrest)
      as (m' & -> & HA & HR & HN).
    exists m'. split; [done|]. rewrite HA, HR, HN.
    destruct (f q) as [rr|]; simpl; [|done]. by rewrite <- app_assoc.
Qed.

Lemma dnsHandler_omap os ts r g (f : Question -> option RR) :
  Forall (fun q => forall m g,
            answerQuestion os ts (fakeDNS_of os) r m q g =
              (Done (match f q with Some rr => appendAnswer m rr | None => m end), g))
         (Questions r) ->
  exists mr, dnsHandler os ts r g = (Done mr, g) /\
    Answer mr = omap f (Questions r) /\ Rcode mr = RcodeSuccess /\ Ns mr = [auth].
Proof.
  intros Hall.
  destruct (answerQuestions_omap os ts (fakeDNS_of os) r f (Questions r)
              (setCompress (SetReply newMsg r) false) g Hall) as (m' & Hm' & HA & HR & HN).
  exists (appendNs m' auth). split; [by apply dnsHandler_of_loop|].
  simpl. by rewrite HA, HR, HN.
Qed.




Lemma fakeDNS_of_set os addr :
  environ os "FAKE_DNS" = Some addr -> addr <> EmptyString -> fakeDNS_of os = addr.
Proof.
  intros He Hne. unfold fakeDNS_of, Getenv. rewrite He. simpl.
  by rewrite (String_eqb_false _ _ Hne).
Qed.




(** C10, as the code has it: after the value [v] was published for the
    non-empty host [h], a message with the single TXT question [n] is
    answered, and the answer is the TXT record of [v] exactly when [n] is
    [ToLower h], byte for byte, or [v] is the value that the store already
    had for [n].  So, unless [v] is that value, a question name that ends
    with a dot never gets the value published for a host written without
    the final dot, and the name [h] itself never gets it when [h] has an
    upper-case letter. *)
Theorem publish_then_txt_query (os : OS) (ts : testSrv) (req : Request) (h v : string)
    (r : Msg) (n : string) (qclass : Z) (g : Globals) :
  h <> EmptyString -> publishes req h v ->
  Questions r = [{| Name := n; Qtype := TypeTXT; Qclass := qclass |}] ->
  let answer := [TXT {| Hdr_Name := n; Rrtype := TypeTXT; Class := ClassINET; Ttl := 0 |} [v]] in
  exists m, dnsHandler os (snd (setTXT ts req)) r g = (Done m, g) /\
    Rcode m = RcodeSuccess /\ Ns m = [auth] /\
    (Answer m = answer <-> n = ToLower h \/ txtRecords ts !! n = Some v) /\
    (endsWithDot n = true -> endsWithDot h = false -> txtRecords ts !! n <> Some v ->
       Answer m <> answer) /\
    (hasUpper h = true -> n = h -> txtRecords ts !! n <> Some v -> Answer m <> answer).
Proof.
  intros Hh Hpub Hqs answer. subst answer.
  rewrite (setTXT_published ts req h v Hh Hpub); simpl.
  destruct (dnsHandler_omap os {| txtRecords := <[ToLower h := v]> (txtRecords ts) |} r g
              (fun q' => match <[ToLower h := v]> (txtRecords ts) !! Name q' with
                         | Some value => Some (TXT (answerHdr q' TypeTXT) [value])
                         | None => None
                         end)) as (m & Hm & Hans & HR & HN).
  { rewrite Hqs. constructor; [|constructor]. intros m0 g0.
    rewrite (answerQuestion_txt os _ _ r m0
               {| Name := n; Qtype := TypeTXT; Qclass := qclass |} g0 eq_refl). simpl.
    by destruct (<[ToLower h := v]> (txtRecords ts) !! n). }
  rewrite Hqs in Hans. simpl in Hans. unfold answerHdr in Hans; simpl in Hans.
  exists m. split; [done|]. split; [done|]. split; [done|].
  assert (Answer m =
          [TXT {| Hdr_Name := n; Rrtype := TypeTXT; Class := ClassINET; Ttl := 0 |} [v]]
          <-> n = ToLower h \/ txtRecords ts !! n = Some v) as Hiff.
  { rewrite Hans. split.
    - intros Ha. destruct (decide (n = ToLower h)) as [|Hne]; [by left|]. right.
      rewrite lookup_insert_ne in Ha by done.
      destruct (txtRecords ts !! n) as [v'|]; [|done]. by injection Ha as ->.
    - intros [-> | Hold].
      + by rewrite lookup_insert_eq.
      + destruct (decide (n = ToLower h)) as [->|Hne]; [by rewrite lookup_insert_eq|].
        rewrite lookup_insert_ne by done. by rewrite Hold. }
  split; [done|]. split.
  - intros Hn Hd Hold Ha. apply Hiff in Ha as [-> | Ha]; [|done].
    rewrite ToLower_dot in Hn. congruence.
  - intros Hup -> Hold Ha. apply Hiff in Ha as [Ha | Ha]; [|done].
    by apply (ToLower_changes_upper h).
Qed.

(** ** Query responder: the unresolvable A question *)

Lemma lookupStaticIP_no_file os name g :
  Stat os hostsPath = inl os_ErrNotExist -> lookupStaticIP os name g = (inr [], g).
Proof. intros H. unfold lookupStaticIP, allHosts. by rewrite H. Qed.

(** In the hosts mode, an A question whose name has no address in the hosts
    table (or when there is no hosts file) reaches [ips[0]] with an empty
    [ips]: the handler panics instead of setting the server-failure
    status. *)
Lemma answerQuestion_unresolvable os ts r m q g g' :
  Qtype q = TypeA ->
  lookupStaticIP os (TrimRight (Name q) ".") g = (inr [], g') ->
  answerQuestion os ts "hosts" r m q g = (Panic, g').
Proof.
  intros Hq Hl. unfold answerQuestion. rewrite Hq; simpl.
  unfold bind, call. by rewrite Hl.
Qed.

Lemma dnsHandler_unresolvable os ts r q qs g g' :
  environ os "FAKE_DNS" = Some "hosts" ->
  Questions r = q :: qs -> Qtype q = TypeA ->
  lookupStaticIP os (TrimRight (Name q) ".") g = (inr [], g') ->
  dnsHandler os ts r g = (Panic, g').
Proof.
  intros Henv Hqs Hq Hl. unfold dnsHandler, fakeDNS_of, Getenv.
  rewrite Henv, Hqs; simpl. unfold bind at 1 2.
  by rewrite (answerQuestion_unresolvable os ts r _ q g g' Hq Hl).
Qed.

(** ** Hosts resolver: parsing *)

Lemma append_cons (c : ascii) (s t : string) : String c s +:+ t = String c (s +:+ t).
Proof. reflexivity. Qed.

Lemma append_nil_l (s : string) : EmptyString +:+ s = s.
Proof. reflexivity. Qed.

Lemma append_nil_r (s : string) : s +:+ EmptyString = s.
Proof. induction s as [|c s IH]; [done|]. by rewrite append_cons, IH. Qed.

Lemma append_assoc (s t u : string) : (s +:+ t) +:+ u = s +:+ t +:+ u.
Proof. induction s as [|c s IH]; [done|]. by rewrite !append_cons, IH. Qed.

Lemma readLines_no_newline data : forall cur,
  noNewline data = true -> readLines data cur = ([], cur +:+ data).
Proof.
  induction data as [|c data IH]; intros cur; simpl.
  - by rewrite append_nil_r.
  - intros [Hc Hd]%andb_true_iff. apply negb_true_iff in Hc. rewrite Hc.
    rewrite (IH _ Hd). by rewrite append_assoc.
Qed.

Lemma readLines_line l rest : forall cur,
  noNewline l = true ->
  readLines (l +:+ String newline rest) cur =
    ((cur +:+ l +:+ String newline EmptyString) :: (readLines rest EmptyString).1,
     (readLines rest EmptyString).2).
Proof.
  induction l as [|c l IH]; intros cur.
  - intros _. rewrite !append_nil_l. simpl.
    by destruct (readLines rest EmptyString).
  - rewrite append_cons. simpl.
    intros [Hc Hd]%andb_true_iff. apply negb_true_iff in Hc. rewrite Hc.
    rewrite (IH _ Hd). by rewrite !append_assoc.
Qed.

(** A hosts file without any newline is parsed to the empty table, whatever
    it holds: the bytes that [ReadString] returns together with [io.EOF] are
    dropped. *)
Lemma readHosts_no_newline data :
  noNewline data = true ->
  readHosts {| rd_data := data; rd_err := io_EOF |} = inr ∅.
Proof.
  intros H. unfold readHosts, ReadString_all; simpl.
  by rewrite (readLines_no_newline data EmptyString H).
Qed.

Lemma readHosts_line_blank ret l :
  TrimSpace l = EmptyString -> readHosts_line ret l = ret.
Proof. intros H. unfold readHosts_line. by rewrite H. Qed.

Lemma readHosts_line_comment ret l s :
  TrimSpace l = String "#"%char s -> readHosts_line ret l = ret.
Proof. intros H. unfold readHosts_line. by rewrite H. Qed.

Lemma readHosts_line_fields ret l c s f0 names :
  TrimSpace l = String c s -> c <> "#"%char -> Split (String c s) = f0 :: names ->
  readHosts_line ret l =
    match ParseIP f0 with
    | None => ret
    | Some addr => foldl (appendHost addr) ret names
    end.
Proof.
  intros H Hc Hs. unfold readHosts_line. rewrite H, Hs.
  by apply Ascii.eqb_neq in Hc as ->.
Qed.

Lemma appendHost_lookup addr ret name k :
  default [] (appendHost addr ret name !! k) =
    default [] (ret !! k) ++ (if decide (name = k) then [addr] else []).
Proof.
  unfold appendHost. destruct (decide (name = k)) as [->|Hne].
  - by rewrite lookup_insert_eq.
  - rewrite lookup_insert_ne by done. by rewrite app_nil_r.
Qed.

(** The aliases of a line get its address appended, once for each time
    they are written, after the addresses they had. *)
Lemma appendHost_foldl_lookup addr names k : forall ret,
  default [] (foldl (appendHost addr) ret names !! k) =
    default [] (ret !! k) ++ replicate (length (filter (fun n => n = k) names)) addr.
Proof.
  induction names as [|name names IH]; intros ret; simpl.
  - by rewrite app_nil_r.
  - rewrite IH, appendHost_lookup, <- app_assoc. f_equal.
    rewrite filter_cons. by destruct (decide (name = k)).
Qed.

(** The split always has a first piece: [fs[0]] in [readHosts] cannot be
    out of range. *)
Lemma Split_go_not_nil s : forall cur inrun, Split_go s cur inrun <> [].
Proof.
  induction s as [|c s IH]; intros cur inrun; simpl; [done|].
  destruct (reSpace c); [destruct inrun|]; [apply IH|done|apply IH].
Qed.

Lemma Split_not_nil s : Split s <> [].
Proof. apply Split_go_not_nil. Qed.

(** With an address in [FAKE_DNS], a message of A questions is answered
    with that address for each question, in the order of the questions. *)
Lemma answerQuestions_fixed_address os ts fakeDNS r qs : forall m g,
  fakeDNS <> "hosts" -> Forall (fun q => Qtype q = TypeA) qs ->
  exists m', answerQuestions os ts fakeDNS r qs m g = (Done m', g) /\
    Answer m' = Answer m ++ map (fun q => A (answerHdr q TypeA) (ParseIP fakeDNS)) qs /\
    Rcode m' = Rcode m.
Proof.
  intros m g Hmode Hqs. revert m.
  induction Hqs as [|q qs Hq _ IH]; intros m; simpl.
  - exists m. by rewrite app_nil_r.
  - unfold bind, answerQuestion. rewrite Hq, (String_eqb_false _ _ Hmode); simpl.
    destruct (IH (appendAnswer m (A (answerHdr q TypeA) (ParseIP fakeDNS))))
      as (m' & -> & Hans & Hrc).
    exists m'. split; [done|]. split; [|done].
    rewrite Hans; simpl. by rewrite <- app_assoc.
Qed.

(** In the hosts mode and without a hosts file, every message that has an A
    question makes the handler panic. *)
Lemma answerQuestions_panic_without_hosts_file os ts r qs : forall m g,
  Stat os hostsPath = inl os_ErrNotExist ->
  Exists (fun q => Qtype q = TypeA) qs ->
  answerQuestions os ts "hosts" r qs m g = (Panic, g).
Proof.
  intros m g Hstat Hqs. revert m.
  induction qs as [|q qs IH]; intros m; [by inversion Hqs|]. simpl. unfold bind.
  destruct (decide (Qtype q = TypeA)) as [Hq|Hq].
  - by rewrite (answerQuestion_unresolvable os ts r m q g g Hq
                  (lookupStaticIP_no_file os _ g Hstat)).
  - destruct (answerQuestion_done os ts "hosts" r m q g (or_intror Hq)) as [m' ->].
    apply IH. by inversion Hqs.
Qed.

(** X5: in the hosts mode and without a hosts file, every message that has
    an A question, at any place among its questions, makes the handler
    panic: no reply is written. *)
Lemma dnsHandler_panic_without_hosts_file os ts r g :
  environ os "FAKE_DNS" = Some "hosts" ->
  Stat os hostsPath = inl os_ErrNotExist ->
  Exists (fun q => Qtype q = TypeA) (Questions r) ->
  dnsHandler os ts r g = (Panic, g).
Proof.
  intros Henv Hstat Hqs. unfold dnsHandler, fakeDNS_of, Getenv. rewrite Henv; simpl.
  unfold bind at 1.
  by rewrite (answerQuestions_panic_without_hosts_file os ts r _ _ g Hstat Hqs).
Qed.

(** ** The shape of every reply *)

Lemma answerQuestion_inv os ts fakeDNS r m q g m' g' :
  answerQuestion os ts fakeDNS r m q g = (Done m', g') ->
  Ns m' = Ns m /\ Compress m' = Compress m /\
  (Answer m' = Answer m \/
   exists rr, Answer m' = Answer m ++ [rr] /\ Header rr = answerHdr q (Qtype q)) /\
  (Rcode m' = Rcode m \/ Rcode m' = RcodeServerFailure).
Proof.
  unfold answerQuestion, bind, call, index0, ret, panic.
  destruct (Z.eqb_spec (Qtype q) TypeA) as [->|_].
  { repeat (case_match; simplify_eq/=); intros; simplify_eq/=; eauto 10. }
  destruct (Z.eqb_spec (Qtype q) TypeMX) as [->|_].
  { intros; simplify_eq/=; eauto 10. }
  destruct (Z.eqb_spec (Qtype q) TypeTXT) as [->|_].
  { repeat (case_match; simplify_eq/=); intros; simplify_eq/=; eauto 10. }
  destruct (Z.eqb_spec (Qtype q) TypeCAA) as [->|_].
  { repeat (case_match; simplify_eq/=); intros; simplify_eq/=; eauto 10. }
  intros; simplify_eq/=; eauto 10.
Qed.

Lemma answerQuestions_inv os ts fakeDNS r qs : forall m g m' g',
  answerQuestions os ts fakeDNS r qs m g = (Done m', g') ->
  Ns m' = Ns m /\ Compress m' = Compress m /\
  (exists new, Answer m' = Answer m ++ new /\ (length new <= length qs)%nat /\
     Forall (fun rr => exists q, q ∈ qs /\ Header rr = answerHdr q (Qtype q)) new) /\
  (Rcode m' = Rcode m \/ Rcode m' = RcodeServerFailure).
Proof.
  induction qs as [|q qs IH]; intros m g m' g'; simpl.
  - unfold ret. intros [= -> _]. repeat split; [|by left].
    exists []. by rewrite app_nil_r.
  - unfold bind at 1.
    destruct (answerQuestion os ts fakeDNS r m q g) as [[m1|] g1] eqn:Hq; [|done].
    intros Hqs. apply IH in Hqs as (HNs & HC & (new & Hnew & Hlen & Hall) & HR).
    apply answerQuestion_inv in Hq as (HNs1 & HC1 & HA1 & HR1).
    split; [congruence|]. split; [congruence|]. split.
    + destruct HA1 as [HA1 | (rr & HA1 & Hrr)].
      * exists new. rewrite Hnew, HA1. split; [done|]. split; [lia|].
        eapply Forall_impl; [exact Hall|]. intros rr (q' & Hin & Hh).
        exists q'. split; [by right | done].
      * exists (rr :: new). rewrite Hnew, HA1, <- app_assoc. split; [done|].
        split; [simpl; lia|]. constructor.
        -- exists q. split; [by left | done].
        -- eapply Forall_impl; [exact Hall|]. intros rr' (q' & Hin & Hh).
           exists q'. split; [by right | done].
    + destruct HR as [HR|HR]; [|by right]. rewrite HR. exact HR1.
Qed.

(** X1: Every reply that the handler writes has the SOA record as its only
    authority record, has compression off, a status that is success or
    server failure, and at most one answer for each question of the query;
    every answer carries the name and the type of a question of the query,
    the class INET and a zero TTL. *)
Theorem dnsHandler_reply_shape (os : OS) (ts : testSrv) (r : Msg) (g : Globals)
    (m : Msg) (g' : Globals) :
  dnsHandler os ts r g = (Done m, g') ->
  Ns m = [auth] /\ Compress m = false /\
  (Rcode m = RcodeSuccess \/ Rcode m = RcodeServerFailure) /\
  (length (Answer m) <= length (Questions r))%nat /\
  Forall (fun rr => exists q, q ∈ Questions r /\
            Header rr = {| Hdr_Name := Name q; Rrtype := Qtype q;
                           Class := ClassINET; Ttl := 0 |}) (Answer m).
Proof.
  unfold dnsHandler, bind at 1.
  destruct (answerQuestions _ _ _ _ _ _ _) as [[m1|] g1] eqn:Hqs; [|done].
  unfold ret. intros [= <- _].
  apply answerQuestions_inv in Hqs as (HNs & HC & (new & Hnew & Hlen & Hall) & HR).
  simpl in *. rewrite HNs, HC, Hnew. repeat split; done.
Qed.

(** X2: The package-level variables are read and written by the A questions of
    the hosts mode only: a message without A questions, or any message when
    [FAKE_DNS] is not [hosts], is always answered, with a success status,
    and leaves the cache of the hosts table as it was. *)
Theorem dnsHandler_total_outside_hosts_mode (os : OS) (ts : testSrv) (r : Msg) (g : Globals) :
  fakeDNS_of os <> "hosts" \/ Forall (fun q => Qtype q <> TypeA) (Questions r) ->
  exists m, dnsHandler os ts r g = (Done m, g) /\ Rcode m = RcodeSuccess.
Proof.
  intros H. destruct (dnsHandler_done os ts r g H) as (m & Hm & _).
  exists m. split; [done|].
  revert Hm. unfold dnsHandler, bind at 1.
  destruct (answerQuestions _ _ _ _ _ _ _) as [[m1|] g1] eqn:Hqs; [|done].
  unfold ret. intros [= <- _]. simpl.
  assert (forall qs m0 g0 m2 g2,
            answerQuestions os ts (fakeDNS_of os) r qs m0 g0 = (Done m2, g2) ->
            fakeDNS_of os <> "hosts" \/ Forall (fun q => Qtype q <> TypeA) qs ->
            Rcode m2 = Rcode m0) as Hrc.
  { induction qs as [|q qs IH]; intros m0 g0 m2 g2; simpl.
    - unfold ret. by intros [= -> _].
    - unfold bind at 1.
      destruct (answerQuestion os ts (fakeDNS_of os) r m0 q g0) as [[m3|] g3] eqn:Hq; [|done].
      intros Hrest Hmode.
      rewrite (IH _ _ _ _ Hrest); [|destruct Hmode as [?|Hf]; [by left|right; by inversion Hf]].
      revert Hq. unfold answerQuestion, bind, call, index0, ret, panic.
      destruct (Z.eqb_spec (Qtype q) TypeA) as [Ha|_].
      { destruct Hmode as [Hm'|Hf]; [|by inversion Hf].
        rewrite (String_eqb_false _ _ Hm'). by intros [= <- _]. }
      repeat case_match; by intros [= <- _]. }
  by rewrite (Hrc _ _ _ _ _ Hqs H).
Qed.

(** X3: A message of MX questions is answered with one MX record for each
    question, in the order of the questions: preference 10 and the name of
    the question after [mail.]. *)
Theorem mx_questions_answered (os : OS) (ts : testSrv) (r : Msg) (g : Globals) :
  Forall (fun q => Qtype q = TypeMX) (Questions r) ->
  exists m, dnsHandler os ts r g = (Done m, g) /\
    Answer m = map (fun q => MX {| Hdr_Name := Name q; Rrtype := TypeMX;
                                  Class := ClassINET; Ttl := 0 |}
                               10 ("mail." +:+ Name q)) (Questions r).
Proof.
  intros Hqs. unfold dnsHandler.
  assert (forall qs m0, Forall (fun q => Qtype q = TypeMX) qs ->
            exists m1, answerQuestions os ts (fakeDNS_of os) r qs m0 g = (Done m1, g) /\
              Answer m1 = Answer m0 ++
                map (fun q => MX {| Hdr_Name := Name q; Rrtype := TypeMX;
                                    Class := ClassINET; Ttl := 0 |}
                                 10 ("mail." +:+ Name q)) qs) as Hloop.
  { induction qs as [|q qs IH]; intros m0 Hall; simpl.
    - exists m0. by rewrite app_nil_r.
    - inversion Hall as [|? ? Hq Hrest]; subst.
      unfold bind, answerQuestion, answerHdr. rewrite Hq; simpl.
      destruct (IH (appendAnswer m0 (MX {| Hdr_Name := Name q; Rrtype := TypeMX;
                                           Class := ClassINET; Ttl := 0 |}
                                        10 ("mail." +:+ Name q))) Hrest)
        as (m1 & -> & Hans).
      exists m1. split; [done|]. rewrite Hans; simpl. by rewrite <- app_assoc. }
  destruct (Hloop (Questions r) (setCompress (SetReply newMsg r) false) Hqs) as (m1 & Hm1 & Hans).
  exists (appendNs m1 auth). unfold bind. rewrite Hm1. split; [done|]. simpl.
  by rewrite Hans.
Qed.

(** X4: A message whose questions are all of types other than A, MX, TXT and
    CAA is answered with an empty answer section. *)
Theorem other_questions_unanswered (os : OS) (ts : testSrv) (r : Msg) (g : Globals) :
  Forall (fun q => Qtype q <> TypeA /\ Qtype q <> TypeMX /\
                   Qtype q <> TypeTXT /\ Qtype q <> TypeCAA) (Questions r) ->
  exists m, dnsHandler os ts r g = (Done m, g) /\ Answer m = [] /\ Ns m = [auth].
Proof.
  intros Hqs. unfold dnsHandler.
  assert (forall qs m0,
            Forall (fun q => Qtype q <> TypeA /\ Qtype q <> TypeMX /\
                             Qtype q <> TypeTXT /\ Qtype q <> TypeCAA) qs ->
            answerQuestions os ts (fakeDNS_of os) r qs m0 g = (Done m0, g)) as Hloop.
  { induction qs as [|q qs IH]; intros m0 Hall; simpl; [done|].
    inversion Hall as [|? ? (Ha & Hmx & Ht & Hc) Hrest]; subst.
    unfold bind, answerQuestion.
    apply Z.eqb_neq in Ha, Hmx, Ht, Hc. rewrite Ha, Hmx, Ht, Hc. simpl.
    by apply IH. }
  exists (appendNs (setCompress (SetReply newMsg r) false) auth).
  unfold bind. by rewrite (Hloop _ _ Hqs).
Qed.

(** ** Control API: what a request can change *)

(** X6: The answer of [setTXT] is one of the four status codes; a request that
    is not answered 200 leaves the record store as it was, and a request
    answered 200 is a [POST] to [/set-txt] whose body decodes to a request
    with a non-empty host, and it changes the entry of the lower-cased host
    and nothing else. *)
Theorem setTXT_effect (ts : testSrv) (r : Request) :
  (fst (setTXT ts r) = 200 \/ fst (setTXT ts r) = 400 \/
   fst (setTXT ts r) = 404 \/ fst (setTXT ts r) = 405) /\
  (fst (setTXT ts r) <> 200 -> snd (setTXT ts r) = ts) /\
  (fst (setTXT ts r) = 200 ->
     URL_Path r = "/set-txt" /\ Method r = "POST" /\
     exists sr, decodesTo r sr /\ Host sr <> EmptyString /\
       txtRecords (snd (setTXT ts r)) = <[ToLower (Host sr) := Value sr]> (txtRecords ts)).
Proof.
  unfold setTXT, decodesTo.
  destruct (String.eqb_spec (URL_Path r) "/set-txt") as [Hp|Hp]; simpl;
    [|split; [auto|split; [done|discriminate]]].
  destruct (String.eqb_spec (Method r) "POST") as [Hm|Hm]; simpl;
    [|split; [auto|split; [done|discriminate]]].
  destruct (Body r) as [err|msg] eqn:Hb; simpl;
    [split; [auto|split; [done|discriminate]]|].
  destruct (jsonUnmarshal msg) as [err|sr] eqn:Hj; simpl;
    [split; [auto|split; [done|discriminate]]|].
  destruct (String.eqb_spec (Host sr) "") as [Hh|Hh]; simpl;
    [split; [auto|split; [done|discriminate]]|].
  split; [auto|]. split; [done|]. intros _. repeat split; [done..|].
  exists sr. split; [by exists msg|]. done.
Qed.

(** X7: Hosts that differ in the case of their letters only share one entry:
    a publication for [h2] replaces the value published for [h1], and the
    store is the one that the second publication alone gives. *)
Theorem publish_overwrites_across_case (ts : testSrv) (r1 r2 : Request)
    (h1 h2 v1 v2 : string) :
  h1 <> EmptyString -> h2 <> EmptyString -> ToLower h1 = ToLower h2 ->
  publishes r1 h1 v1 -> publishes r2 h2 v2 ->
  snd (setTXT (snd (setTXT ts r1)) r2) = snd (setTXT ts r2) /\
  txtRecords (snd (setTXT (snd (setTXT ts r1)) r2)) !! ToLower h1 = Some v2.
Proof.
  intros Hh1 Hh2 Hl H1 H2.
  rewrite (setTXT_published ts r1 h1 v1 Hh1 H1); simpl.
  rewrite !(setTXT_published _ r2 h2 v2 Hh2 H2); simpl.
  rewrite Hl. split; [|apply lookup_insert_eq].
  f_equal. apply insert_insert_eq.
Qed.

(** X8: Publications for hosts with different lower-case forms do not
    interfere: both values are stored, and the order of the two requests
    does not matter. *)
Theorem publish_independent_hosts (ts : testSrv) (r1 r2 : Request)
    (h1 h2 v1 v2 : string) :
  h1 <> EmptyString -> h2 <> EmptyString -> ToLower h1 <> ToLower h2 ->
  publishes r1 h1 v1 -> publishes r2 h2 v2 ->
  let ts12 := snd (setTXT (snd (setTXT ts r1)) r2) in
  let ts21 := snd (setTXT (snd (setTXT ts r2)) r1) in
  ts12 = ts21 /\
  txtRecords ts12 !! ToLower h1 = Some v1 /\ txtRecords ts12 !! ToLower h2 = Some v2.
Proof.
  intros Hh1 Hh2 Hl H1 H2 ts12 ts21. subst ts12 ts21.
  rewrite (setTXT_published ts r1 h1 v1 Hh1 H1); simpl.
  rewrite !(setTXT_published _ r2 h2 v2 Hh2 H2); simpl.
  rewrite (setTXT_published _ r1 h1 v1 Hh1 H1); simpl.
  split; [|split].
  - f_equal. by apply insert_insert_ne.
  - rewrite lookup_insert_ne by done. apply lookup_insert_eq.
  - apply lookup_insert_eq.
Qed.

Lemma setTXT_keys_lowercase ts r :
  (forall k v, txtRecords ts !! k = Some v -> hasUpper k = false /\ k <> EmptyString) ->
  forall k v, txtRecords (snd (setTXT ts r)) !! k = Some v ->
    hasUpper k = false /\ k <> EmptyString.
Proof.
  intros Hts k v. unfold setTXT.
  destruct (negb _); [apply Hts|]. destruct (negb _); [apply Hts|].
  destruct (Body r) as [err|msg]; [apply Hts|].
  destruct (jsonUnmarshal msg) as [err|sr]; [apply Hts|].
  destruct (String.eqb_spec (Host sr) "") as [Hh|Hh]; [apply Hts|]. simpl.
  destruct (decide (k = ToLower (Host sr))) as [->|Hne].
  - intros _. split; [apply ToLower_no_upper|].
    by intros He%ToLower_nonempty.
  - rewrite lookup_insert_ne by done. apply Hts.
Qed.

Lemma afterRequests_keys_lowercase rs : forall ts,
  (forall k v, txtRecords ts !! k = Some v -> hasUpper k = false /\ k <> EmptyString) ->
  forall k v, txtRecords (afterRequests ts rs) !! k = Some v ->
    hasUpper k = false /\ k <> EmptyString.
Proof.
  induction rs as [|r rs IH]; intros ts Hts; simpl; [done|].
  apply IH. by apply setTXT_keys_lowercase.
Qed.

(** X9: Whatever requests the control API has served since the server started,
    every name of the record store is non-empty and has no upper-case
    letter; so a TXT question whose name has an upper-case letter, or is
    empty, gets no answer. *)
Theorem uppercase_txt_question_unanswered (rs : list Request) (os : OS)
    (fakeDNS : string) (r m : Msg) (q : Question) (g : Globals) :
  Qtype q = TypeTXT ->
  hasUpper (Name q) = true \/ Name q = EmptyString ->
  (forall k v, txtRecords (afterRequests newTestSrv rs) !! k = Some v ->
     hasUpper k = false /\ k <> EmptyString) /\
  answerQuestion os (afterRequests newTestSrv rs) fakeDNS r m q g = (Done m, g).
Proof.
  intros Hq Hname.
  assert (forall k v, txtRecords (afterRequests newTestSrv rs) !! k = Some v ->
            hasUpper k = false /\ k <> EmptyString) as Hinv.
  { apply afterRequests_keys_lowercase. intros k v. simpl. by rewrite lookup_empty. }
  split; [exact Hinv|].
  unfold answerQuestion. rewrite Hq; simpl.
  destruct (txtRecords (afterRequests newTestSrv rs) !! Name q) as [v|] eqn:Hl; [|done].
  apply Hinv in Hl as [Hup Hne]. destruct Hname; congruence.
Qed.

(** ** Hosts resolver: the cache and the table *)

(** X10: After a call of [allHosts] that returned a table, the table is the
    cached one, and every later call returns it without reading the file,
    as long as the modification time of the file is not later than the one
    seen by the first call: also when the content of the file has changed
    or the file cannot be opened any more. *)
Theorem allHosts_cache_hit (os : OS) (g : Globals) (hm : HostMap) (g' : Globals) :
  allHosts os g = (inr hm, g') ->
  hosts g' = Some hm /\
  (forall st, Stat os hostsPath = inr st -> ModTime st <= hostsTime g') /\
  (forall os' st', Stat os' hostsPath = inr st' -> ModTime st' <= hostsTime g' ->
     allHosts os' g' = (inr hm, g')).
Proof.
  unfold allHosts at 1, Before.
  destruct (Stat os hostsPath) as [err|st] eqn:Hst; [done|].
  destruct (isNil (hosts g) || (hostsTime g <? ModTime st)) eqn:Hre.
  - destruct (loadHosts os hostsPath) as [err|hm'] eqn:Hl; [done|].
    intros [= <- <-]. simpl. split; [done|]. split.
    + intros st0 [= <-]. lia.
    + intros os' st' Hst' Hle. unfold allHosts, Before. rewrite Hst'. simpl.
      by destruct (Z.ltb_spec (ModTime st) (ModTime st')); [lia|].
  - apply orb_false_iff in Hre as [Hnil Hlt]. apply Z.ltb_ge in Hlt.
    destruct (hosts g) as [hm0|] eqn:Hh; [|done]. simpl.
    intros [= <- <-]. split; [done|]. split.
    + by intros st0 [= <-].
    + intros os' st' Hst' Hle. unfold allHosts, Before. rewrite Hst', Hh. simpl.
      by destruct (Z.ltb_spec (hostsTime g) (ModTime st')); [lia|].
Qed.

Lemma appendHost_wf addr s ret name :
  ParseIP s = Some addr -> wfTable ret -> wfTable (appendHost addr ret name).
Proof.
  intros Hs Hret k ips. unfold appendHost.
  destruct (decide (name = k)) as [->|Hne].
  - rewrite lookup_insert_eq. intros [= <-]. split.
    + by destruct (default [] (ret !! k)).
    + apply Forall_app. split; [|by constructor; eauto].
      destruct (ret !! k) as [ips0|] eqn:Hk; simpl; [|done]. by apply (Hret k).
  - rewrite lookup_insert_ne by done. apply Hret.
Qed.

Lemma appendHost_foldl_wf addr s names : forall ret,
  ParseIP s = Some addr -> wfTable ret -> wfTable (foldl (appendHost addr) ret names).
Proof.
  induction names as [|name names IH]; intros ret Hs Hret; simpl; [done|].
  apply IH; [done|]. by apply (appendHost_wf addr s).
Qed.

Lemma readHosts_line_wf ret l : wfTable ret -> wfTable (readHosts_line ret l).
Proof.
  intros Hret. unfold readHosts_line.
  repeat (case_match; try done).
  by eapply appendHost_foldl_wf.
Qed.

Lemma readHosts_wf r hm : readHosts r = inr hm -> wfTable hm.
Proof.
  unfold readHosts. destruct (ReadString_all r) as [ls [last err]].
  destruct (isEOF err); [|done]. intros [= <-].
  assert (forall ls ret, wfTable ret -> wfTable (foldl readHosts_line ret ls)) as Hfold.
  { clear. induction ls as [|l ls IH]; intros ret Hret; simpl; [done|].
    apply IH. by apply readHosts_line_wf. }
  apply Hfold. intros k ips. by rewrite lookup_empty.
Qed.

Lemma allHosts_wf os g hm g' :
  wfCache g -> allHosts os g = (inr hm, g') -> wfTable hm /\ wfCache g'.
Proof.
  intros Hg. unfold allHosts.
  destruct (Stat os hostsPath) as [err|st]; [done|].
  destruct (isNil (hosts g) || Before (hostsTime g) (ModTime st)) eqn:Hre.
  - destruct (loadHosts os hostsPath) as [err|hm'] eqn:Hl; [done|].
    intros [= <- <-].
    assert (wfTable hm') as Hwf.
    { unfold loadHosts in Hl. destruct (Open os hostsPath); [done|].
      by apply readHosts_wf in Hl. }
    split; [done|]. intros hm0 [= <-]. done.
  - apply orb_false_iff in Hre as [Hnil _].
    destruct (hosts g) as [hm0|] eqn:Hh; [|done]. simpl.
    intros [= <- <-]. split; [by apply Hg|done].
Qed.

Lemma wfCache_init : wfCache initGlobals.
Proof. by intros hm. Qed.

Lemma allHosts_wfCache os g : wfCache g -> wfCache (snd (allHosts os g)).
Proof.
  intros Hg. destruct (allHosts os g) as [[err|hm] g'] eqn:Ha; simpl.
  - revert Ha. unfold allHosts. repeat case_match; intros; by simplify_eq.
  - by apply (allHosts_wf os g hm g').
Qed.

(** X11: The cache of the hosts table only ever holds tables in which every
    name has an address: starting from such a cache (the initial one is),
    [lookupStaticIP] leaves such a cache, every address it returns is one
    that [net.ParseIP] returned for a token of the file, and it returns no
    address exactly when there is no hosts file or the name is not in the
    table. *)
Theorem lookupStaticIP_addresses (os : OS) (name : string) (g : Globals)
    (ips : list IP) (g' : Globals) :
  wfCache g ->
  lookupStaticIP os name g = (inr ips, g') ->
  wfCache g' /\
  Forall (fun ip => exists s, ParseIP s = Some ip) ips /\
  (ips = [] <->
     (exists err, fst (allHosts os g) = inl err /\ IsNotExist err = true) \/
     (exists hm, fst (allHosts os g) = inr hm /\ hm !! name = None)).
Proof.
  intros Hg. unfold lookupStaticIP.
  pose proof (allHosts_wfCache os g Hg) as Hg'.
  destruct (allHosts os g) as [[err|hm] g1] eqn:Ha; simpl in *.
  - destruct (IsNotExist err) eqn:He; [|done]. intros [= <- <-].
    split; [done|]. split; [done|]. split; [|done]. intros _. left. eauto.
  - intros [= <- <-]. split; [done|].
    destruct (allHosts_wf os g hm g1 Hg Ha) as [Hwf _].
    destruct (hm !! name) as [ips0|] eqn:Hn; simpl.
    + destruct (Hwf name ips0 Hn) as [Hne Hall]. split; [done|]. split; [done|].
      intros [(err & [=] & _) | (hm' & [= <-] & Hnone)]. congruence.
    + split; [done|]. split; [|done]. intros _. right. eauto.
Qed.

(** X12: In the hosts mode, an A question for a name that the hosts table lists
    adds one record to the answer section of the reply, with the first
    address listed for the name, and leaves the status as it is: the index
    out of range cannot happen for a listed name.  The reply to a message
    with this single question has this record as its only answer, the
    success status and the SOA record. *)
Theorem listed_name_is_answered (os : OS) (ts : testSrv) (r m : Msg) (q : Question)
    (g : Globals) (hm : HostMap) (g' : Globals) :
  wfCache g -> Qtype q = TypeA ->
  allHosts os g = (inr hm, g') ->
  is_Some (hm !! TrimRight (Name q) ".") ->
  exists ip ips,
    hm !! TrimRight (Name q) "." = Some (ip :: ips) /\
    wfCache g' /\
    (exists m', answerQuestion os ts "hosts" r m q g = (Done m', g') /\
       Answer m' = Answer m ++
         [A {| Hdr_Name := Name q; Rrtype := TypeA; Class := ClassINET; Ttl := 0 |}
            (Some ip)] /\
       Rcode m' = Rcode m /\ Ns m' = Ns m) /\
    (environ os "FAKE_DNS" = Some "hosts" -> Questions r = [q] ->
       exists mr, dnsHandler os ts r g = (Done mr, g') /\
         Answer mr =
           [A {| Hdr_Name := Name q; Rrtype := TypeA; Class := ClassINET; Ttl := 0 |}
              (Some ip)] /\
         Rcode mr = RcodeSuccess /\ Ns mr = [auth]).
Proof.
  intros Hg Hq Ha [ips0 Hn].
  destruct (allHosts_wf os g hm g' Hg Ha) as [Hwf Hg'].
  destruct (Hwf _ _ Hn) as [Hne _].
  destruct ips0 as [|ip ips]; [done|].
  exists ip, ips. split; [done|]. split; [done|].
  assert (forall m0, answerQuestion os ts "hosts" r m0 q g =
            (Done (appendAnswer m0 (A (answerHdr q TypeA) (Some ip))), g')) as Hstep.
  { intros m0. rewrite (answerQuestion_a_hosts os ts r m0 q g Hq).
    unfold lookupStaticIP. by rewrite Ha, Hn. }
  split.
  - rewrite Hstep. eexists. split; [done|]. done.
  - intros He Hqs.
    pose proof (fakeDNS_of_set os "hosts" He ltac:(done)) as Hf.
    destruct (dnsHandler_one os ts r q g
                (appendAnswer (setCompress (SetReply newMsg r) false)
                              (A (answerHdr q TypeA) (Some ip))) g' Hqs)
      as (mr & Hmr & HA & HR & HN); [by rewrite Hf, Hstep|].
    exists mr. by rewrite HA, HR, HN.
Qed.

(** ** Hosts resolver: whole files *)

Lemma readLines_fileOf ls tail :
  Forall (fun l => noNewline l = true) ls -> noNewline tail = true ->
  readLines (fileOf ls tail) EmptyString =
    (map (fun l => l +:+ String newline EmptyString) ls, tail).
Proof.
  intros Hls Htail. induction Hls as [|l ls Hl _ IH]; simpl.
  - by rewrite (readLines_no_newline tail EmptyString Htail).
  - rewrite (readLines_line l (fileOf ls tail) EmptyString Hl), IH. simpl.
    by rewrite append_nil_l.
Qed.

(** X13: A file is parsed line by line, in the order of the lines, and only the
    lines that a newline ends are parsed: the bytes after the last newline
    have no effect on the table.  When the reader ends with an error other
    than the end of the file, that error is the result, whatever was
    read. *)
Theorem readHosts_terminated_lines (ls : list string) (tail : string) (err : error) :
  Forall (fun l => noNewline l = true) ls -> noNewline tail = true ->
  readHosts {| rd_data := fileOf ls tail; rd_err := err |} =
    if isEOF err
    then inr (foldl readHosts_line ∅ (map (fun l => l +:+ String newline EmptyString) ls))
    else inl err.
Proof.
  intros Hls Htail. unfold readHosts, ReadString_all; simpl.
  by rewrite (readLines_fileOf ls tail Hls Htail).
Qed.

Lemma readHosts_line_prefix ret l k :
  exists more, default [] (readHosts_line ret l !! k) = default [] (ret !! k) ++ more.
Proof.
  unfold readHosts_line.
  destruct (TrimSpace l) as [|c s]; [exists []; by rewrite app_nil_r|].
  destruct (Ascii.eqb c "#"); [exists []; by rewrite app_nil_r|].
  destruct (Split (String c s)) as [|f0 names]; [exists []; by rewrite app_nil_r|].
  destruct (ParseIP f0) as [addr|]; [|exists []; by rewrite app_nil_r].
  eexists. apply appendHost_foldl_lookup.
Qed.

Lemma readHosts_lines_prefix ls k : forall ret,
  exists more, default [] (foldl readHosts_line ret ls !! k) = default [] (ret !! k) ++ more.
Proof.
  induction ls as [|l ls IH]; intros ret; simpl.
  - exists []. by rewrite app_nil_r.
  - destruct (IH (readHosts_line ret l)) as [more2 ->].
    destruct (readHosts_line_prefix ret l k) as [more1 ->].
    exists (more1 ++ more2). by rewrite app_assoc.
Qed.

(** X14: Lines added at the end of a hosts file never remove a name or an
    address: the addresses that the longer file gives to a name start with
    the addresses that the shorter file gives to it, in the same order. *)
Theorem readHosts_more_lines_extend (ls ls' : list string) (tail tail' : string) :
  Forall (fun l => noNewline l = true) ls -> Forall (fun l => noNewline l = true) ls' ->
  noNewline tail = true -> noNewline tail' = true ->
  exists hm hm',
    readHosts {| rd_data := fileOf ls tail; rd_err := io_EOF |} = inr hm /\
    readHosts {| rd_data := fileOf (ls ++ ls') tail'; rd_err := io_EOF |} = inr hm' /\
    forall name, exists more,
      default [] (hm' !! name) = default [] (hm !! name) ++ more.
Proof.
  intros Hls Hls' Ht Ht'. eexists _, _.
  unfold readHosts, ReadString_all; simpl.
  rewrite (readLines_fileOf ls tail Hls Ht).
  rewrite (readLines_fileOf (ls ++ ls') tail'); [|by apply Forall_app|done].
  split; [done|]. split; [done|]. intros name.
  rewrite map_app, foldl_app. apply readHosts_lines_prefix.
Qed.

(** X15: A line whose first field is an address gives that address to every
    other field, once for each time the field is written and after the
    addresses the name already has; the fields are not looked at further,
    so a field that starts with [#] is a name like the others; every other
    name keeps its addresses. *)
Theorem readHosts_line_lookup (ret : HostMap) (l : string) (c : ascii) (s f0 : string)
    (names : list string) (addr : IP) :
  TrimSpace l = String c s -> c <> "#"%char ->
  Split (String c s) = f0 :: names -> ParseIP f0 = Some addr ->
  (forall name, default [] (readHosts_line ret l !! name) =
     default [] (ret !! name) ++ replicate (length (filter (fun n => n = name) names)) addr) /\
  (forall name, name ∈ names -> is_Some (readHosts_line ret l !! name)) /\
  (forall name, name ∉ names -> readHosts_line ret l !! name = ret !! name).
Proof.
  intros Ht Hc Hs Ha.
  rewrite (readHosts_line_fields ret l c s f0 names Ht Hc Hs), Ha.
  split; [intros name; apply appendHost_foldl_lookup|]. split.
  - intros name Hin.
    pose proof (appendHost_foldl_lookup addr names name ret) as Hl.
    destruct (foldl (appendHost addr) ret names !! name) as [ips|]; [eauto|].
    exfalso. simpl in Hl. symmetry in Hl. apply app_eq_nil in Hl as [_ Hl].
    assert (filter (fun n => n = name) names <> []) as Hf.
    { intros Hf. assert (name ∈ filter (fun n => n = name) names) as Hin'
        by (by apply list_elem_of_filter).
      rewrite Hf in Hin'. by inversion Hin'. }
    destruct (filter (fun n => n = name) names); [done|discriminate].
  - intros name Hnin. clear Hs. revert ret.
    induction names as [|n names IH]; intros ret; simpl; [done|].
    apply not_elem_of_cons in Hnin as [Hne Hnin].
    rewrite IH by done. unfold appendHost. by rewrite lookup_insert_ne.
Qed.

End Server.

(** * The properties on concrete requests *)

Import dns.

(** C1, on the code: in the hosts mode, with a hosts file that has
    [localhost] only, the name [unknown.example] resolves to no address and
    without an error, and a message that asks for the A records of
    [unknown.example.] and of [localhost.] makes the handler panic, in
    either order of the questions: no server-failure status is set and the
    resolvable question gets no answer, since no reply is written. *)
Theorem unresolvable_A_question_panics :
  fst (lookupStaticIP Sample.TrimSpace Sample.ParseIP Sample.hostsModeOS "unknown.example" initGlobals)
    = inr [] /\
  fst (lookupStaticIP Sample.TrimSpace Sample.ParseIP Sample.hostsModeOS "localhost" initGlobals)
    = inr [Sample.localhostIP] /\
  fst (dnsHandler Sample.TrimSpace Sample.ParseIP Sample.hostsModeOS Sample.freshSrv
         (Sample.query [Sample.questionA "unknown.example."; Sample.questionA "localhost."])
         initGlobals) = Panic /\
  fst (dnsHandler Sample.TrimSpace Sample.ParseIP Sample.hostsModeOS Sample.freshSrv
         (Sample.query [Sample.questionA "localhost."; Sample.questionA "unknown.example."])
         initGlobals) = Panic.
Proof. repeat split; vm_compute; reflexivity. Qed.

(** The resolvable question alone is answered. *)
Example resolvable_A_question_answered :
  exists m g, dnsHandler Sample.TrimSpace Sample.ParseIP Sample.hostsModeOS Sample.freshSrv
                (Sample.query [Sample.questionA "localhost."]) initGlobals = (Done m, g) /\
    Answer m = [A {| Hdr_Name := "localhost."; Rrtype := TypeA; Class := ClassINET; Ttl := 0 |}
                  (Some Sample.localhostIP)] /\
    Rcode m = RcodeSuccess /\ Ns m = [auth].
Proof. eexists _, _. split; [vm_compute; reflexivity|]. by vm_compute. Qed.

(** An error of the resolver other than a missing file does set the
    server-failure status, and the questions that follow are answered. *)
Example resolver_error_sets_server_failure :
  exists m g, dnsHandler Sample.TrimSpace Sample.ParseIP
                (Sample.withFakeDNS "hosts" (Sample.unreadableHostsFile 5)) Sample.freshSrv
                (Sample.query [Sample.questionA "localhost."; Sample.questionCAA "bad-caa-reserved.com."])
                initGlobals = (Done m, g) /\
    Rcode m = RcodeServerFailure /\
    Answer m = [CAA {| Hdr_Name := "bad-caa-reserved.com."; Rrtype := TypeCAA;
                       Class := ClassINET; Ttl := 0 |} 0 "issue" "sad-hacker-ca.invalid"] /\
    Ns m = [auth].
Proof. eexists _, _. split; [vm_compute; reflexivity|]. by vm_compute. Qed.

(** C9, on the code: in the hosts mode and without a hosts file, a message
    with one A question makes the handler panic; no reply is written, so no
    SOA record is sent for this message. *)
Theorem no_reply_no_authority_record :
  dnsHandler Sample.TrimSpace Sample.ParseIP (Sample.withFakeDNS "hosts" Sample.noHostsFile) Sample.freshSrv
    (Sample.query [Sample.questionA "example.com."]) initGlobals = (Panic, initGlobals).
Proof. vm_compute. reflexivity. Qed.

(** C8, on the code: the last line of a hosts file is not parsed when no
    newline ends it.  The file [127.0.0.1 localhost] gives the empty table
    without the final newline and the entry for [localhost] with it; of two
    lines, the second of which is not ended, only the first is parsed. *)
Theorem last_line_without_newline_dropped :
  readHosts Sample.TrimSpace Sample.ParseIP {| rd_data := Sample.localhostLine; rd_err := io_EOF |} = inr ∅ /\
  (exists hm,
     readHosts Sample.TrimSpace Sample.ParseIP {| rd_data := Sample.localhostLine +:+ Sample.nl; rd_err := io_EOF |}
       = inr hm /\ hm !! "localhost" = Some [Sample.localhostIP]) /\
  (exists hm,
     readHosts Sample.TrimSpace Sample.ParseIP
       {| rd_data := Sample.localhostLine +:+ Sample.nl +:+ "10.0.0.2 web"; rd_err := io_EOF |}
       = inr hm /\ hm !! "localhost" = Some [Sample.localhostIP] /\ hm !! "web" = None).
Proof.
  split; [by vm_compute|]. split.
  - eexists. split; [vm_compute; reflexivity|]. by vm_compute.
  - eexists. split; [vm_compute; reflexivity|]. by vm_compute.
Qed.


Example unset_FAKE_DNS_answers_loopback :
  exists m, dnsHandler Sample.TrimSpace Sample.ParseIP
              (Sample.hostsFile 5 ("10.0.0.2 localhost" +:+ Sample.nl)) Sample.freshSrv
              (Sample.query [Sample.questionA "localhost."]) initGlobals = (Done m, initGlobals) /\
    Answer m = [A {| Hdr_Name := "localhost."; Rrtype := TypeA; Class := ClassINET; Ttl := 0 |}
                  (Some Sample.localhostIP)].
Proof. eexists. split; [vm_compute; reflexivity|]. by vm_compute. Qed.


(** C7 does not hold when the file cannot be read again: with a cached
    table of timestamp 1 and a hosts file of modification time 5 that
    [os.Open] refuses, the timestamp of the cache is not replaced. *)
Lemma stale_cache_kept_when_reload_fails :
  ~ (forall (os : OS) (g : Globals) (st : FileInfo),
       Stat os hostsPath = inr st -> hostsTime g < ModTime st ->
       hostsTime (snd (allHosts Sample.TrimSpace Sample.ParseIP os g)) = ModTime st).
Proof.
  intros H.
  specialize (H (Sample.unreadableHostsFile 5) {| hosts := Some ∅; hostsTime := 1 |}
                {| ModTime := 5 |} eq_refl).
  simpl in H. specialize (H ltac:(lia)). vm_compute in H. discriminate H.
Qed.

(** The cases of [allHosts_cache_rule] on a hosts file of modification
    time 5: a cache of timestamp 5 is kept, a cache of timestamp 1 is
    replaced, and it is kept when the file cannot be opened. *)
Lemma allHosts_cache_rule_witness :
  let os := Sample.hostsFile 5 (Sample.localhostLine +:+ Sample.nl) in
  let fresh := {| hosts := Some ∅; hostsTime := 5 |} in
  let stale := {| hosts := Some ∅; hostsTime := 1 |} in
  allHosts Sample.TrimSpace Sample.ParseIP os fresh = (inr ∅, fresh) /\
  (exists hm, loadHosts Sample.TrimSpace Sample.ParseIP os hostsPath = inr hm /\
     hm !! "localhost" = Some [Sample.localhostIP] /\
     allHosts Sample.TrimSpace Sample.ParseIP os stale = (inr hm, {| hosts := Some hm; hostsTime := 5 |})) /\
  allHosts Sample.TrimSpace Sample.ParseIP (Sample.unreadableHostsFile 5) stale = (inl os_ErrPermission, stale).
Proof.
  intros os fresh stale. split; [|split].
  - destruct (allHosts_cache_rule Sample.TrimSpace Sample.ParseIP os fresh) as [_ Hstat].
    destruct (Hstat {| ModTime := 5 |} eq_refl) as [Hkeep _].
    apply Hkeep; [reflexivity|simpl; lia].
  - destruct (allHosts_cache_rule Sample.TrimSpace Sample.ParseIP os stale) as [_ Hstat].
    destruct (Hstat {| ModTime := 5 |} eq_refl) as [_ Hreload].
    destruct Hreload as [Hnew _]; [right; simpl; lia|].
    eexists. split; [vm_compute; reflexivity|]. split; [by vm_compute|].
    apply Hnew. vm_compute; reflexivity.
  - destruct (allHosts_cache_rule Sample.TrimSpace Sample.ParseIP (Sample.unreadableHostsFile 5) stale)
      as [_ Hstat].
    destruct (Hstat {| ModTime := 5 |} eq_refl) as [_ Hreload].
    destruct Hreload as [_ Hfail]; [right; simpl; lia|].
    by apply Hfail.
Defined.

(** The status codes on four requests: a publication, [POST /set-txt] with
    the body [{}], [GET /set-txt] and [POST /unknown]. *)
Lemma setTXT_status_codes_witness :
  let ts := Sample.freshSrv in
  fst (setTXT Sample.ToLower Sample.jsonUnmarshal ts (Sample.post (Sample.body "example.com." "token"))) = 200 /\
  setTXT Sample.ToLower Sample.jsonUnmarshal ts (Sample.post "{}") = (400, ts) /\
  setTXT Sample.ToLower Sample.jsonUnmarshal ts
    {| URL_Path := "/set-txt"; Method := "GET"; Body := inr EmptyString |} = (405, ts) /\
  setTXT Sample.ToLower Sample.jsonUnmarshal ts
    {| URL_Path := "/unknown"; Method := "POST"; Body := inr "{}" |} = (404, ts).
Proof.
  intros ts. split; [|split; [|split]].
  - destruct (setTXT_status_codes Sample.ToLower Sample.jsonUnmarshal ts
                (Sample.post (Sample.body "example.com." "token"))) as (Hok & _).
    apply (Hok eq_refl eq_refl {| Host := "example.com."; Value := "token" |}).
    + eexists. split; [reflexivity|]. vm_compute. reflexivity.
    + discriminate.
  - destruct (setTXT_status_codes Sample.ToLower Sample.jsonUnmarshal ts (Sample.post "{}"))
      as (_ & Hbad & _).
    apply (Hbad eq_refl eq_refl). right.
    exists {| Host := EmptyString; Value := EmptyString |}. split; [|reflexivity].
    eexists. split; reflexivity.
  - destruct (setTXT_status_codes Sample.ToLower Sample.jsonUnmarshal ts
                {| URL_Path := "/set-txt"; Method := "GET"; Body := inr EmptyString |})
      as (_ & _ & Hmethod & _).
    apply Hmethod; [reflexivity|discriminate].
  - destruct (setTXT_status_codes Sample.ToLower Sample.jsonUnmarshal ts
                {| URL_Path := "/unknown"; Method := "POST"; Body := inr "{}" |})
      as (_ & _ & _ & Hpath).
    apply Hpath. discriminate.
Defined.

Lemma publishes_sample (h v : string) :
  Sample.jsonUnmarshal (Sample.body h v) = inr {| Host := h; Value := v |} ->
  publishes Sample.jsonUnmarshal (Sample.post (Sample.body h v)) h v.
Proof. intros H. split; [reflexivity|]. split; [reflexivity|]. by eexists. Defined.

(** Publishing [first] and then [second] for [Example.COM.] on a store that
    holds a value for [other.org.]: [second] is stored under
    [example.com.] and the entry of [other.org.] is as it was. *)
Lemma publish_twice_keeps_last_witness :
  let ts := {| txtRecords := {[ "other.org." := "kept" ]} |} in
  let ts1 := snd (setTXT Sample.ToLower Sample.jsonUnmarshal ts (Sample.post (Sample.body "Example.COM." "first"))) in
  let ts2 := snd (setTXT Sample.ToLower Sample.jsonUnmarshal ts1 (Sample.post (Sample.body "Example.COM." "second"))) in
  Sample.ToLower "Example.COM." = "example.com." /\
  txtRecords ts2 !! "example.com." = Some "second" /\
  txtRecords ts2 !! "other.org." = Some "kept" /\
  txtRecords ts2 !! "Example.COM." = None.
Proof.
  intros ts ts1 ts2.
  destruct (publish_twice_keeps_last Sample.ToLower Sample.jsonUnmarshal ts
              (Sample.post (Sample.body "Example.COM." "first"))
              (Sample.post (Sample.body "Example.COM." "second"))
              "Example.COM." "first" "second")
    as (_ & _ & _ & Hlast & _ & Hother).
  { discriminate. }
  { apply publishes_sample. vm_compute. reflexivity. }
  { apply publishes_sample. vm_compute. reflexivity. }
  split; [reflexivity|]. split; [exact Hlast|]. split.
  - etrans; [apply (Hother "other.org."); discriminate | reflexivity].
  - etrans; [apply (Hother "Example.COM."); discriminate | reflexivity].
Defined.



(** C10 does not hold for a value that is stored under two names: after
    [token] was published for [a.example.], the publication of [token] for
    [b.example.] is followed by the answer [token] to the TXT question
    [a.example.], which is not the lower-case form of [b.example.]. *)
Lemma txt_query_answers_value_of_other_host :
  ~ (forall (os : OS) (ts : testSrv) (req : Request) (h v : string) (r : Msg) (n : string)
            (g : Globals),
       h <> EmptyString -> publishes Sample.jsonUnmarshal req h v ->
       Questions r = [Sample.questionTXT n] ->
       exists m,
         dnsHandler Sample.TrimSpace Sample.ParseIP os
           (snd (setTXT Sample.ToLower Sample.jsonUnmarshal ts req)) r g = (Done m, g) /\
         (Answer m = [TXT {| Hdr_Name := n; Rrtype := TypeTXT; Class := ClassINET; Ttl := 0 |}
                          [v]]
          <-> n = Sample.ToLower h)).
Proof.
  intros H.
  destruct (H Sample.noHostsFile
              (snd (setTXT Sample.ToLower Sample.jsonUnmarshal Sample.freshSrv
                      (Sample.post (Sample.body "a.example." "token"))))
              (Sample.post (Sample.body "b.example." "token")) "b.example." "token"
              (Sample.query [Sample.questionTXT "a.example."]) "a.example." initGlobals)
    as (m & Hm & Hiff).
  - discriminate.
  - apply publishes_sample. vm_compute. reflexivity.
  - reflexivity.
  - vm_compute in Hm. injection Hm as <-.
    assert ("a.example." = Sample.ToLower "b.example.") as Heq by (by apply Hiff).
    vm_compute in Heq. discriminate Heq.
Qed.

(** The value published for [Example.com] is the answer to the TXT question
    [example.com] and not to [Example.com] nor to [example.com.]. *)
Lemma publish_then_txt_query_witness :
  let ts := snd (setTXT Sample.ToLower Sample.jsonUnmarshal Sample.freshSrv
                   (Sample.post (Sample.body "Example.com" "token"))) in
  let answer n := [TXT {| Hdr_Name := n; Rrtype := TypeTXT; Class := ClassINET; Ttl := 0 |}
                       ["token"]] in
  let ask n := dnsHandler Sample.TrimSpace Sample.ParseIP Sample.noHostsFile ts
                 (Sample.query [Sample.questionTXT n]) initGlobals in
  (exists m, ask "example.com" = (Done m, initGlobals) /\ Answer m = answer "example.com") /\
  (exists m, ask "Example.com" = (Done m, initGlobals) /\ Answer m <> answer "Example.com") /\
  (exists m, ask "example.com." = (Done m, initGlobals) /\ Answer m <> answer "example.com.").
Proof.
  intros ts answer ask.
  assert (forall n, Sample.freshSrv.(txtRecords) !! n <> Some "token") as Hfresh.
  { intros n. unfold Sample.freshSrv; simpl. by rewrite lookup_empty. }
  assert (publishes Sample.jsonUnmarshal (Sample.post (Sample.body "Example.com" "token"))
            "Example.com" "token") as Hpub.
  { apply publishes_sample. vm_compute. reflexivity. }
  split; [|split].
  - destruct (publish_then_txt_query Sample.TrimSpace Sample.ParseIP Sample.ToLower
                Sample.jsonUnmarshal Sample_ToLower_no_upper Sample_ToLower_dot
                Sample.noHostsFile Sample.freshSrv _ "Example.com" "token"
                (Sample.query [Sample.questionTXT "example.com"]) "example.com" ClassINET
                initGlobals ltac:(discriminate) Hpub eq_refl)
      as (m & Hm & _ & _ & Hiff & _).
    exists m. split; [exact Hm|]. apply Hiff. by left.
  - destruct (publish_then_txt_query Sample.TrimSpace Sample.ParseIP Sample.ToLower
                Sample.jsonUnmarshal Sample_ToLower_no_upper Sample_ToLower_dot
                Sample.noHostsFile Sample.freshSrv _ "Example.com" "token"
                (Sample.query [Sample.questionTXT "Example.com"]) "Example.com" ClassINET
                initGlobals ltac:(discriminate) Hpub eq_refl)
      as (m & Hm & _ & _ & _ & _ & Hupper).
    exists m. split; [exact Hm|]. apply Hupper; [reflexivity..|apply Hfresh].
  - destruct (publish_then_txt_query Sample.TrimSpace Sample.ParseIP Sample.ToLower
                Sample.jsonUnmarshal Sample_ToLower_no_upper Sample_ToLower_dot
                Sample.noHostsFile Sample.freshSrv _ "Example.com" "token"
                (Sample.query [Sample.questionTXT "example.com."]) "example.com." ClassINET
                initGlobals ltac:(discriminate) Hpub eq_refl)
      as (m & Hm & _ & _ & _ & Hdot & _).
    exists m. split; [exact Hm|]. apply Hdot; [reflexivity..|apply Hfresh].
Defined.

(** * The orphan finder *)

Import OrphanFinder.

(** The three ways in which [parseLine] ends. *)
Lemma parseLine_cases {SA} (lib : Lib SA) (w : World SA) (line : string) :
  (Contains line "pem=" || Contains line "b64der=" = false /\
   parseLine lib w line = ((false, false), w)) \/
  (Contains line "pem=" || Contains line "b64der=" = true /\
   exists msg, parseLine lib w line = ((true, false), logErr w msg)) \/
  (Contains line "pem=" || Contains line "b64der=" = true /\
   exists der regID,
     parseLine lib w line = addOrphan lib w line der regID /\
     (Contains line "pem=" = true ->
        regID = -99 /\
        pem_Decode lib (String.list_byte_of_string (pemOrphan lib line)) = (Some der, []))).
Proof.
  unfold parseLine.
  destruct (Contains line "pem=") eqn:Hpem.
  { right. destruct (String.eqb (pemOrphan lib line) "").
    { left. split; [done|]. by eexists. }
    destruct (pem_Decode lib _) as [[bytes|] rest] eqn:Hd.
    2:{ left. split; [done|]. by eexists. }
    destruct rest as [|b rest].
    2:{ left. split; [done|]. by eexists. }
    right. split; [done|]. exists bytes, (-99). split; [done|]. by intros _. }
  destruct (Contains line "b64der=") eqn:Hb64; [|by left].
  right. destruct (String.eqb (b64derOrphan lib line) "").
  { left. split; [done|]. by eexists. }
  destruct (base64_DecodeString lib _) as [err|der].
  { left. split; [done|]. by eexists. }
  destruct (String.eqb (regOrphan lib line) "").
  { left. split; [done|]. by eexists. }
  destruct (Atoi lib _) as [err|regID].
  { left. split; [done|]. by eexists. }
  right. split; [done|]. exists der, regID. split; [done|]. intros [=].
Qed.

(** X16: [parseLine] finds an orphan exactly in the lines that hold [pem=] or
    [b64der=], and a line without them has no effect; an orphan that is
    added was found; and exactly the orphans that are found and not added
    are logged, one message each. *)
Theorem parseLine_found_added {SA : Type} (lib : Lib SA) (w : World SA) (line : string) :
  let found := fst (fst (parseLine lib w line)) in
  let added := snd (fst (parseLine lib w line)) in
  let w' := snd (parseLine lib w line) in
  (found = Contains line "pem=" || Contains line "b64der=") /\
  (found = false -> w' = w) /\
  (added = true -> found = true) /\
  (if found && negb added then exists msg, logged w' = logged w ++ [msg]
   else logged w' = logged w).
Proof.
  intros found added w'. subst found added w'.
  destruct (parseLine_cases lib w line)
    as [[Hc ->] | [[Hc [msg ->]] | [Hc (der & regID & -> & _)]]]; rewrite Hc; simpl.
  - done.
  - repeat split; try done. by exists msg.
  - unfold addOrphan, logErr.
    destruct (AddCertificate lib der regID (sa w)) as [[err|digest] sa']; simpl.
    + repeat split; try done. by eexists.
    + done.
Qed.

(** X17: [parseLine] calls the storage authority at most once: its state after
    the line is the state before, or the state after one call of
    [AddCertificate]; the orphan is added exactly when that call returns
    no error; and in a line that holds [pem=] the registration given is
    -99 and the certificate is the one [pem.Decode] found with nothing
    left over. *)
Theorem parseLine_storage {SA : Type} (lib : Lib SA) (w : World SA) (line : string) :
  let added := snd (fst (parseLine lib w line)) in
  let w' := snd (parseLine lib w line) in
  (sa w' = sa w /\ added = false) \/
  (exists der regID,
     sa w' = snd (AddCertificate lib der regID (sa w)) /\
     (added = true <-> exists digest, fst (AddCertificate lib der regID (sa w)) = inr digest) /\
     (Contains line "pem=" = true ->
        regID = -99 /\
        pem_Decode lib (String.list_byte_of_string (pemOrphan lib line)) = (Some der, []))).
Proof.
  intros added w'. subst added w'.
  destruct (parseLine_cases lib w line)
    as [[_ ->] | [[_ [msg ->]] | [_ (der & regID & -> & Hpem)]]]; simpl.
  - by left.
  - by left.
  - right. exists der, regID. unfold addOrphan, logErr.
    destruct (AddCertificate lib der regID (sa w)) as [[err|digest] sa']; simpl.
    + split; [done|]. split; [|done]. split; [done|]. by intros [? ?].
    + split; [done|]. split; [|done]. split; [by eauto|done].
Qed.

Lemma wrap64_small z : - 2 ^ 63 <= z < 2 ^ 63 -> wrap64 z = z.
Proof. intros H. unfold wrap64. rewrite Z.mod_small; lia. Qed.

Lemma SplitByte_go_length s sep : forall cur,
  (length (SplitByte_go s cur sep) <= S (String.length s))%nat.
Proof.
  induction s as [|c s IH]; intros cur; simpl; [lia|].
  destruct (Ascii.eqb c sep); simpl; [specialize (IH EmptyString)|specialize (IH (cur +:+ String c EmptyString))]; lia.
Qed.

Lemma countLine_step {SA} (lib : Lib SA) (c : Counters) (w : World SA) line :
  0 <= orphansAdded c <= orphansFound c -> orphansFound c < 2 ^ 63 - 1 ->
  let c' := fst (countLine lib (c, w) line) in
  let w' := snd (countLine lib (c, w) line) in
  orphansAdded c <= orphansAdded c' <= orphansFound c' /\
  orphansFound c <= orphansFound c' <= orphansFound c + 1 /\
  Z.of_nat (length (logged w')) - (orphansFound c' - orphansAdded c') =
  Z.of_nat (length (logged w)) - (orphansFound c - orphansAdded c).
Proof.
  intros Hc Hb. unfold countLine.
  destruct (parseLine_cases lib w line)
    as [[_ ->] | [[_ [msg ->]] | [_ (der & regID & -> & _)]]]; simpl.
  - lia.
  - rewrite !wrap64_small by lia. rewrite length_app; simpl. lia.
  - unfold addOrphan, logErr.
    destruct (AddCertificate lib der regID (sa w)) as [[err|digest] sa']; simpl.
    + rewrite !wrap64_small by lia. rewrite length_app; simpl. lia.
    + rewrite !wrap64_small by lia. lia.
Qed.

Lemma countLines_bounds {SA} (lib : Lib SA) lines : forall (c : Counters) (w : World SA),
  0 <= orphansAdded c <= orphansFound c ->
  orphansFound c + Z.of_nat (length lines) < 2 ^ 63 ->
  let c' := fst (foldl (countLine lib) (c, w) lines) in
  let w' := snd (foldl (countLine lib) (c, w) lines) in
  0 <= orphansAdded c' <= orphansFound c' /\
  orphansFound c' <= orphansFound c + Z.of_nat (length lines) /\
  Z.of_nat (length (logged w')) - (orphansFound c' - orphansAdded c') =
  Z.of_nat (length (logged w)) - (orphansFound c - orphansAdded c).
Proof.
  induction lines as [|line lines IH]; intros c w Hc Hb; [simpl in *; lia|].
  change (foldl (countLine lib) (c, w) (line :: lines))
    with (foldl (countLine lib) (countLine lib (c, w) line) lines).
  change (length (line :: lines)) with (S (length lines)) in *.
  rewrite Nat2Z.inj_succ in *.
  destruct (countLine_step lib c w line Hc ltac:(lia)) as (H1 & H2 & H3).
  destruct (countLine lib (c, w) line) as [c1 w1]. cbn [fst snd] in *.
  destruct (IH c1 w1 ltac:(lia) ltac:(lia)) as (H4 & H5 & H6). lia.
Qed.

(** X18: The counters of the loop over a log of less than 2^63 - 1 bytes do not
    wrap around: the orphans added are at most the orphans found, which are
    at most the lines of the log, the third statistic is their difference
    and is not negative, and the loop logs one message for each orphan that
    was found and not added. *)
Theorem countOrphans_bounds {SA : Type} (lib : Lib SA) (w : World SA) (logData : string) :
  Z.of_nat (String.length logData) < 2 ^ 63 - 1 ->
  let c := fst (countOrphans lib w logData) in
  let w' := snd (countOrphans lib w logData) in
  0 <= orphansAdded c <= orphansFound c /\
  orphansFound c <= Z.of_nat (length (SplitByte logData newline)) /\
  statsOf c = (orphansFound c, orphansAdded c, orphansFound c - orphansAdded c) /\
  Z.of_nat (length (logged w')) = Z.of_nat (length (logged w)) + (orphansFound c - orphansAdded c).
Proof.
  intros Hlen. unfold countOrphans.
  pose proof (SplitByte_go_length logData newline EmptyString) as Hn.
  fold (SplitByte logData newline) in Hn.
  destruct (countLines_bounds lib (SplitByte logData newline)
              {| orphansFound := 0; orphansAdded := 0 |} w) as (H1 & H2 & H3);
    simpl in *; [lia..|].
  split; [done|]. split; [lia|]. split; [|lia].
  unfold statsOf. by rewrite wrap64_small by lia.
Qed.

(** * Configuration *)

Import Config.

Lemma checkNames_None V names :
  checkNames V names = None <-> Forall (fun name => V name = true) names.
Proof.
  induction names as [|name names IH]; simpl; [by split|].
  destruct (V name) eqn:Hv; simpl.
  - rewrite IH. split; [by constructor|by inversion 1].
  - split; [done|]. inversion 1; congruence.
Qed.

Lemma checkNames_Some V names err :
  checkNames V names = Some err ->
  exists name, name ∈ names /\ V name = false /\
    err = err_other ("Invalid challenge in PA config: " +:+ name).
Proof.
  induction names as [|name names IH]; simpl; [done|].
  destruct (V name) eqn:Hv; simpl.
  - intros (n & Hin & Hn)%IH. exists n. split; [by right|done].
  - intros [= <-]. exists name. split; [by left|done].
Qed.

(** X19: [CheckChallenges] accepts a configuration exactly when its map of
    challenges is not empty and every name of the map is a valid
    challenge, whatever the map says of the name and in whatever order the
    names are visited; the error for a map that is not empty names a
    challenge of the map that is not valid. *)
Theorem CheckChallenges_accepts (V : string -> bool) (names : list string) (pc : PAConfig) :
  names ≡ₚ (map_to_list (Challenges pc)).*1 ->
  (CheckChallenges V names pc = None <->
     Challenges pc <> ∅ /\ forall name, is_Some (Challenges pc !! name) -> V name = true) /\
  (forall err, CheckChallenges V names pc = Some err -> Challenges pc <> ∅ ->
     exists name, is_Some (Challenges pc !! name) /\ V name = false /\
       err = err_other ("Invalid challenge in PA config: " +:+ name)).
Proof.
  intros Hperm.
  assert (forall name, name ∈ names <-> is_Some (Challenges pc !! name)) as Hin.
  { intros name. rewrite Hperm, list_elem_of_fmap. split.
    - intros ([k b] & -> & Hkb). apply elem_of_map_to_list in Hkb. by exists b.
    - intros [b Hb]. exists (name, b). split; [done|]. by apply elem_of_map_to_list. }
  unfold CheckChallenges.
  destruct (Nat.eqb_spec (size (Challenges pc)) 0) as [Hz|Hnz].
  - apply map_size_empty_iff in Hz. split.
    + split; [done|]. by intros [? _].
    + by intros err _ ?.
  - assert (Challenges pc <> ∅) as Hne by (by intros ?%map_size_empty_iff).
    split.
    + rewrite checkNames_None, Forall_forall. split.
      * intros Hall. split; [done|]. intros name ?%Hin. by apply Hall.
      * intros [_ Hall] name ?%Hin. by apply Hall.
    + intros err (name & Hn & Hv & ->)%checkNames_Some _.
      exists name. split; [by apply Hin|done].
Qed.

Lemma TrimRight_byte s c :
  exists n, s = TrimRight s (String c EmptyString) +:+ repeatByte c n /\
    endsWithByte c (TrimRight s (String c EmptyString)) = false.
Proof.
  induction s as [|d s (n & Hs & He)]; [by exists 0%nat|]. simpl.
  destruct (TrimRight s (String c EmptyString)) as [|e t] eqn:Ht.
  - destruct (Ascii.eqb_spec d c) as [->|Hd]; simpl.
    + exists (S n). split; [|done]. simpl. by rewrite Hs at 1.
    + exists n. split; [by rewrite Hs at 1|]. simpl. by apply Ascii.eqb_neq.
  - exists n. split; [by rewrite Hs at 1|]. exact He.
Qed.

(** X20: The URL that [ServerURL] reads from a file is the content of the file
    without the newlines at its end, and it is returned with the error of
    the read; without a file, the URL is the configured server, and the
    error is the missing URL exactly when no server is configured. *)
Theorem ServerURL_result (ReadFile : string -> string * option error) (a : AMQPConfig) :
  (ServerURLFile a <> EmptyString ->
     exists n,
       snd (ServerURL ReadFile a) = snd (ReadFile (ServerURLFile a)) /\
       fst (ReadFile (ServerURLFile a)) = fst (ServerURL ReadFile a) +:+ repeatByte newline n /\
       endsWithByte newline (fst (ServerURL ReadFile a)) = false) /\
  (ServerURLFile a = EmptyString ->
     fst (ServerURL ReadFile a) = Server a /\
     (snd (ServerURL ReadFile a) = None <-> Server a <> EmptyString)).
Proof.
  unfold ServerURL. split.
  - intros Hf. rewrite (String_eqb_false _ _ Hf); simpl.
    destruct (ReadFile (ServerURLFile a)) as [url err]; simpl.
    destruct (TrimRight_byte url newline) as (n & Hn & He). by exists n.
  - intros ->. simpl.
    destruct (String.eqb_spec (Server a) "") as [->|Hs]; simpl; [by split|].
    by split.
Qed.

(** * The further properties on concrete inputs *)

Import dns.

Lemma dnsHandler_reply_shape_witness :
  exists m g,
    dnsHandler Sample.TrimSpace Sample.ParseIP Sample.hostsModeOS Sample.freshSrv
      (Sample.query [Sample.questionA "localhost."; Sample.questionCAA "example.com."])
      initGlobals = (Done m, g) /\
    Ns m = [auth] /\ (length (Answer m) <= 2)%nat.
Proof.
  eexists _, _. split; [vm_compute; reflexivity|].
  destruct (dnsHandler_reply_shape Sample.TrimSpace Sample.ParseIP Sample.hostsModeOS Sample.freshSrv
              (Sample.query [Sample.questionA "localhost."; Sample.questionCAA "example.com."])
              initGlobals _ _ ltac:(vm_compute; reflexivity)) as (HNs & _ & _ & Hlen & _).
  split; [exact HNs | exact Hlen].
Defined.

Lemma dnsHandler_total_outside_hosts_mode_witness :
  exists m,
    dnsHandler Sample.TrimSpace Sample.ParseIP Sample.noHostsFile Sample.freshSrv
      (Sample.query [Sample.questionA "example.com."]) initGlobals = (Done m, initGlobals) /\
    Rcode m = RcodeSuccess.
Proof.
  apply (dnsHandler_total_outside_hosts_mode Sample.TrimSpace Sample.ParseIP Sample.noHostsFile).
  left. vm_compute. discriminate.
Defined.

Lemma mx_questions_answered_witness :
  exists m,
    dnsHandler Sample.TrimSpace Sample.ParseIP Sample.hostsModeOS Sample.freshSrv
      (Sample.query [{| Name := "example.org."; Qtype := TypeMX; Qclass := ClassINET |}])
      initGlobals = (Done m, initGlobals) /\
    Answer m = [MX {| Hdr_Name := "example.org."; Rrtype := TypeMX; Class := ClassINET; Ttl := 0 |}
                   10 "mail.example.org."].
Proof.
  apply (mx_questions_answered Sample.TrimSpace Sample.ParseIP Sample.hostsModeOS Sample.freshSrv
           (Sample.query [{| Name := "example.org."; Qtype := TypeMX; Qclass := ClassINET |}])).
  repeat constructor.
Defined.

Lemma other_questions_unanswered_witness :
  exists m,
    dnsHandler Sample.TrimSpace Sample.ParseIP Sample.hostsModeOS Sample.freshSrv
      (Sample.query [{| Name := "example.org."; Qtype := 28; Qclass := ClassINET |}])
      initGlobals = (Done m, initGlobals) /\
    Answer m = [] /\ Ns m = [auth].
Proof.
  apply (other_questions_unanswered Sample.TrimSpace Sample.ParseIP Sample.hostsModeOS Sample.freshSrv
           (Sample.query [{| Name := "example.org."; Qtype := 28; Qclass := ClassINET |}])).
  repeat constructor; discriminate.
Defined.

Lemma dnsHandler_panic_without_hosts_file_witness :
  dnsHandler Sample.TrimSpace Sample.ParseIP (Sample.withFakeDNS "hosts" Sample.noHostsFile) Sample.freshSrv
    (Sample.query [Sample.questionTXT "example.com."; Sample.questionA "example.com."])
    initGlobals = (Panic, initGlobals).
Proof.
  apply dnsHandler_panic_without_hosts_file; [reflexivity..|].
  apply Exists_cons_tl, Exists_cons_hd. reflexivity.
Defined.

Lemma publish_overwrites_across_case_witness :
  let r1 := Sample.post (Sample.body "Example.com" "first") in
  let r2 := Sample.post (Sample.body "EXAMPLE.COM" "second") in
  txtRecords (snd (setTXT Sample.ToLower Sample.jsonUnmarshal
                     (snd (setTXT Sample.ToLower Sample.jsonUnmarshal Sample.freshSrv r1)) r2))
    !! "example.com" = Some "second".
Proof.
  intros r1 r2.
  apply (publish_overwrites_across_case Sample.ToLower Sample.jsonUnmarshal Sample.freshSrv r1 r2
           "Example.com" "EXAMPLE.COM" "first" "second");
    [discriminate..|reflexivity| |]; apply publishes_sample; vm_compute; reflexivity.
Defined.

Lemma publish_independent_hosts_witness :
  let r1 := Sample.post (Sample.body "a.example.com" "first") in
  let r2 := Sample.post (Sample.body "b.example.com" "second") in
  snd (setTXT Sample.ToLower Sample.jsonUnmarshal (snd (setTXT Sample.ToLower Sample.jsonUnmarshal Sample.freshSrv r1)) r2) =
  snd (setTXT Sample.ToLower Sample.jsonUnmarshal (snd (setTXT Sample.ToLower Sample.jsonUnmarshal Sample.freshSrv r2)) r1).
Proof.
  intros r1 r2.
  apply (publish_independent_hosts Sample.ToLower Sample.jsonUnmarshal Sample.freshSrv r1 r2
           "a.example.com" "b.example.com" "first" "second");
    [discriminate..| |]; apply publishes_sample; vm_compute; reflexivity.
Defined.

Lemma uppercase_txt_question_unanswered_witness :
  let rs := [Sample.post (Sample.body "Example.com." "token")] in
  let r := Sample.query [Sample.questionTXT "Example.com."] in
  answerQuestion Sample.TrimSpace Sample.ParseIP Sample.noHostsFile
    (afterRequests Sample.ToLower Sample.jsonUnmarshal newTestSrv rs) "127.0.0.1" r (SetReply newMsg r)
    (Sample.questionTXT "Example.com.") initGlobals
  = (Done (SetReply newMsg r), initGlobals).
Proof.
  intros rs r.
  apply (uppercase_txt_question_unanswered Sample.TrimSpace Sample.ParseIP Sample.ToLower
           Sample.jsonUnmarshal Sample_ToLower_no_upper Sample_ToLower_nonempty rs);
    [reflexivity|left; reflexivity].
Defined.

Lemma allHosts_cache_hit_witness :
  let os := Sample.hostsFile 5 (Sample.localhostLine +:+ Sample.nl) in
  let os' := Sample.hostsFile 5 ("10.0.0.2 localhost" +:+ Sample.nl) in
  exists hm g',
    allHosts Sample.TrimSpace Sample.ParseIP os initGlobals = (inr hm, g') /\
    hm !! "localhost" = Some [Sample.localhostIP] /\
    allHosts Sample.TrimSpace Sample.ParseIP os' g' = (inr hm, g') /\
    allHosts Sample.TrimSpace Sample.ParseIP (Sample.unreadableHostsFile 4) g' = (inr hm, g').
Proof.
  intros os os'. eexists _, _.
  split; [vm_compute; reflexivity|]. split; [by vm_compute|].
  destruct (allHosts_cache_hit Sample.TrimSpace Sample.ParseIP os initGlobals _ _
              ltac:(vm_compute; reflexivity)) as (_ & _ & Hhit).
  split.
  - apply (Hhit os' {| ModTime := 5 |}); [reflexivity|simpl; lia].
  - apply (Hhit (Sample.unreadableHostsFile 4) {| ModTime := 4 |}); [reflexivity|simpl; lia].
Defined.

Lemma lookupStaticIP_addresses_witness :
  exists g',
    lookupStaticIP Sample.TrimSpace Sample.ParseIP Sample.hostsModeOS "localhost" initGlobals
      = (inr [Sample.localhostIP], g') /\
    wfCache Sample.ParseIP g' /\
    Forall (fun ip => exists s, Sample.ParseIP s = Some ip) [Sample.localhostIP].
Proof.
  eexists. split; [vm_compute; reflexivity|].
  destruct (lookupStaticIP_addresses Sample.TrimSpace Sample.ParseIP Sample.hostsModeOS "localhost" initGlobals
              _ _ (wfCache_init Sample.ParseIP) ltac:(vm_compute; reflexivity))
    as (Hwf & Hall & _).
  split; [exact Hwf | exact Hall].
Defined.

Lemma listed_name_is_answered_witness :
  let r := Sample.query [Sample.questionA "localhost."] in
  exists mr g',
    dnsHandler Sample.TrimSpace Sample.ParseIP Sample.hostsModeOS Sample.freshSrv r
      initGlobals = (Done mr, g') /\
    Answer mr =
      [A {| Hdr_Name := "localhost."; Rrtype := TypeA; Class := ClassINET; Ttl := 0 |}
         (Some Sample.localhostIP)].
Proof.
  intros r.
  destruct (listed_name_is_answered Sample.TrimSpace Sample.ParseIP Sample.hostsModeOS
              Sample.freshSrv r newMsg (Sample.questionA "localhost.") initGlobals
              {[ "localhost" := [Sample.localhostIP] ]}
              (snd (allHosts Sample.TrimSpace Sample.ParseIP Sample.hostsModeOS initGlobals))
              (wfCache_init Sample.ParseIP) eq_refl)
    as (ip & ips & Hl & _ & _ & Hone).
  - vm_compute. reflexivity.
  - vm_compute. eauto.
  - destruct (Hone eq_refl eq_refl) as (mr & Hmr & HA & _).
    exists mr. eexists. split; [exact Hmr|].
    vm_compute in Hl. injection Hl as <- <-. exact HA.
Defined.

Lemma readHosts_terminated_lines_witness :
  readHosts Sample.TrimSpace Sample.ParseIP
    {| rd_data := fileOf ["# hosts"; Sample.localhostLine] "10.0.0.2 web"; rd_err := io_EOF |} =
  inr {[ "localhost" := [Sample.localhostIP] ]}.
Proof.
  rewrite (readHosts_terminated_lines Sample.TrimSpace Sample.ParseIP ["# hosts"; Sample.localhostLine]
             "10.0.0.2 web" io_EOF); [|repeat constructor|reflexivity].
  vm_compute. reflexivity.
Defined.

Lemma readHosts_more_lines_extend_witness :
  exists hm hm',
    readHosts Sample.TrimSpace Sample.ParseIP
      {| rd_data := fileOf [Sample.localhostLine] EmptyString; rd_err := io_EOF |} = inr hm /\
    readHosts Sample.TrimSpace Sample.ParseIP
      {| rd_data := fileOf ([Sample.localhostLine] ++ ["10.0.0.2 localhost web"]) EmptyString;
         rd_err := io_EOF |} = inr hm' /\
    forall name, exists more, default [] (hm' !! name) = default [] (hm !! name) ++ more.
Proof.
  apply (readHosts_more_lines_extend Sample.TrimSpace Sample.ParseIP [Sample.localhostLine]
           ["10.0.0.2 localhost web"] EmptyString EmptyString);
    [repeat constructor..|reflexivity|reflexivity].
Defined.

Lemma readHosts_line_lookup_witness :
  let l := "10.0.0.2 web web # comment" +:+ Sample.nl in
  let ret : HostMap := {[ "web" := [Sample.localhostIP] ]} in
  let addr := Sample.IPv4 Byte.x0a Byte.x00 Byte.x00 Byte.x02 in
  default [] (readHosts_line Sample.TrimSpace Sample.ParseIP ret l !! "web") = [Sample.localhostIP; addr; addr] /\
  is_Some (readHosts_line Sample.TrimSpace Sample.ParseIP ret l !! "#").
Proof.
  intros l ret addr.
  destruct (readHosts_line_lookup Sample.TrimSpace Sample.ParseIP ret l "1" "0.0.0.2 web web # comment"
              "10.0.0.2" ["web"; "web"; "#"; "comment"] addr)
    as (Hlookup & Hin & _); [vm_compute; reflexivity|discriminate|vm_compute; reflexivity..|].
  split.
  - rewrite (Hlookup "web"). vm_compute. reflexivity.
  - apply Hin. by repeat constructor.
Defined.

Import OrphanFinder.

(** On the sample log the whole match of [b64derOrphan] is given to the
    decoder, which refuses it: the three lines with [b64der=] are found,
    none is added, and three messages are logged. *)
Lemma countOrphans_bounds_witness :
  let c := fst (countOrphans OrphanSample.lib OrphanSample.world OrphanSample.logData) in
  let w' := snd (countOrphans OrphanSample.lib OrphanSample.world OrphanSample.logData) in
  b64derOrphan OrphanSample.lib OrphanSample.goodLine = "b64der=[QUJD] regID=[17]" /\
  (orphansFound c, orphansAdded c) = (3, 0) /\
  0 <= orphansAdded c <= orphansFound c /\
  Z.of_nat (length (logged w')) = orphansFound c - orphansAdded c.
Proof.
  intros c w'. split; [vm_compute; reflexivity|]. split; [vm_compute; reflexivity|].
  destruct (countOrphans_bounds OrphanSample.lib OrphanSample.world OrphanSample.logData)
    as (Hc & _ & _ & Hlog); [vm_compute; reflexivity|].
  split; [exact Hc | exact Hlog].
Defined.

Import Config.

Lemma CheckChallenges_accepts_witness :
  let V := fun name => String.eqb name "http-01" || String.eqb name "dns-01" in
  let good := {| EnforcePolicyWhitelist := false;
                 Challenges := {[ "http-01" := true; "dns-01" := false ]};
                 AllowAnySuffix := false |} in
  let bad := {| EnforcePolicyWhitelist := false;
                Challenges := {[ "http-01" := true; "simpleHttp" := false ]};
                AllowAnySuffix := false |} in
  CheckChallenges V (map_to_list (Challenges good)).*1 good = None /\
  CheckChallenges V (map_to_list (Challenges bad)).*1 bad <> None.
Proof.
  intros V good bad. split.
  - apply (CheckChallenges_accepts V _ good); [reflexivity|].
    split; [by vm_compute|].
    intros name [b Hb]. unfold good in Hb; simpl in Hb.
    apply lookup_insert_Some in Hb as [[<- _] | [_ Hb]]; [reflexivity|].
    apply lookup_singleton_Some in Hb as [<- _]. reflexivity.
  - intros Hnone.
    apply (CheckChallenges_accepts V _ bad) in Hnone as [_ Hall]; [|reflexivity].
    assert (V "simpleHttp" = true) as Hv by (apply Hall; vm_compute; eauto).
    discriminate Hv.
Defined.
